(** * Watchtower hint database (watchtower/watchdb.go)

    A shallow embedding of the watchtower's bolt-backed store
    ([OpenDB], [AddNewChannel], [AddMsg], [IngestTx]) and of the justice
    transaction builder ([BuildJusticeTx]), with the properties of the
    design document stated and settled against the code. *)

From Stdlib Require Import List ZArith Lia Bool.
From Stdlib Require Import Strings.Byte.
Import ListNotations.
Local Open Scope Z_scope.

(** * Part I: the model *)

(** ** Bytes and big-endian integers *)

Definition bytes := list byte.

Definition byte_val (b : byte) : Z := Z.of_N (Byte.to_N b).

Definition byte_of (z : Z) : byte :=
  match Byte.of_N (Z.to_N (z mod 256)) with
  | Some b => b
  | None => x00
  end.

(** [bytes.Compare]: lexicographic order on byte strings, the order in
    which a bolt bucket keeps its keys. *)
Fixpoint bytes_compare (a b : bytes) : comparison :=
  match a, b with
  | [], [] => Eq
  | [], _ :: _ => Lt
  | _ :: _, [] => Gt
  | x :: a', y :: b' =>
      match Z.compare (byte_val x) (byte_val y) with
      | Eq => bytes_compare a' b'
      | c => c
      end
  end.

(** [bytes.Equal]. *)
Definition bytes_eqb (a b : bytes) : bool :=
  match bytes_compare a b with Eq => true | _ => false end.

(** Go's [copy(dst, src)]: overwrites the first [min (len dst) (len src)]
    bytes of [dst]. *)
Definition copy (dst src : bytes) : bytes :=
  firstn (length dst) src ++ skipn (length src) dst.

(** [dst[lo:hi]] replaced by the result of [copy(dst[lo:hi], src)]. *)
Definition copy_at (dst : bytes) (lo hi : nat) (src : bytes) : bytes :=
  firstn lo dst ++ copy (firstn (hi - lo) (skipn lo dst)) src ++ skipn hi dst.

(** [make([]byte, n)]. *)
Definition make (n : nat) : bytes := repeat x00 n.

(** Big-endian encoding on [n] bytes of [z mod 256^n]
    ([binary.Write(&buf, binary.BigEndian, i)]). *)
Fixpoint be_encode (n : nat) (z : Z) : bytes :=
  match n with
  | O => []
  | S k => byte_of (z / 256 ^ Z.of_nat k) :: be_encode k z
  end.

Definition be_decode (b : bytes) : Z :=
  fold_left (fun acc x => acc * 256 + byte_val x) b 0.

(** Modelled from the spec: lnutil.U32tB, lnutil.U64tB and lnutil.BtU32 are
    not among the sources.  The design document fixes them as big-endian
    conversions ("interpret as big-endian u32", "the low 6 bytes of the
    8-byte counter").  On a slice that is not 4 bytes long -- the nil key a
    cursor yields on an empty bucket -- [BtU32] gives [0xffffffff], so that
    the source's [BtU32(k) + 1] wraps to the index 0 which the design
    document assigns to the first channel. *)
Definition U32tB (i : Z) : bytes := be_encode 4 i.
Definition U64tB (i : Z) : bytes := be_encode 8 i.
Definition BtU32 (b : bytes) : Z :=
  if Nat.eqb (length b) 4 then be_decode b else 4294967295.

(** Wrap-around of Go's fixed-width integers. *)
Definition u32 (z : Z) : Z := z mod 2 ^ 32.
Definition u64 (z : Z) : Z := z mod 2 ^ 64.
Definition i64 (z : Z) : Z := (z + 2 ^ 63) mod 2 ^ 64 - 2 ^ 63.

(** ** The bolt store

    A bolt database is a tree of buckets; a bucket keeps its keys in
    [bytes.Compare] order and maps each either to a value or to a nested
    bucket. *)

#[warnings="-register-all"]
Inductive node : Type :=
| Val (v : bytes)
| Bkt (items : list (bytes * node)).

Definition bucket := list (bytes * node).

(** The database file: its root bucket. *)
Definition DB := bucket.

Fixpoint lookup (k : bytes) (b : bucket) : option node :=
  match b with
  | [] => None
  | (k', n) :: r => if bytes_eqb k k' then Some n else lookup k r
  end.

Fixpoint insert (k : bytes) (n : node) (b : bucket) : bucket :=
  match b with
  | [] => [(k, n)]
  | (k', n') :: r =>
      match bytes_compare k k' with
      | Lt => (k, n) :: b
      | Eq => (k, n) :: r
      | Gt => (k', n') :: insert k n r
      end
  end.

Inductive error : Type :=
(* bolt *)
| ErrBucketExists
| ErrBucketNameRequired
| ErrIncompatibleValue
| ErrKeyRequired
| ErrKeyTooLarge
| ErrValueTooLarge
| ErrStorage (code : Z)          (* I/O failure on open, begin or commit *)
(* fmt.Errorf of watchdb.go *)
| ErrNoPKHmapBucket              (* "no PKHmap bucket" *)
| ErrNoChandataBucket            (* "no Chandata bucket" *)
| ErrNoTxidBucket                (* "no txid bucket" *)
| ErrWatchDescLen                (* "watchdescriptor %d bytes, expect 96" *)
| ErrNoChannel (pkh : bytes)     (* "no bucket for channel %x" *)
| ErrNoIndex (pkh : bytes)       (* "channel %x has no index" *)
| ErrNoPkhForIndex (idx : Z)     (* "No pkh found for index %d" *)
| ErrNoChannelBucket             (* "No channel bucket" *)
| ErrNoPkhBucket (pkh : bytes)   (* "No bucket for pkh %x" *)
| ErrNoStatic (pkh : bytes)      (* "No static data for pkh %x" *)
| ErrNoElkrem (pkh : bytes)      (* "No elkrem receiver for pkh %x" *)
| ErrNoMatch                     (* "couldn't match generated script with
                                    detected txout" *)
(* errors of the collaborators: elkrem, btcec, the record codecs *)
| ErrCollab (code : Z).

Inductive result (A : Type) : Type :=
| Ok (a : A)
| Err (e : error).
Arguments Ok {A} a.
Arguments Err {A} e.

(** What a collaborator hands back: a value, or an error of its own,
    which reaches the caller of the watchtower as [ErrCollab]. *)
Inductive outcome (A : Type) : Type :=
| Good (a : A)
| Bad (code : Z).
Arguments Good {A} a.
Arguments Bad {A} code.

(** A handle on a bucket of the running transaction: its path of keys from
    the root. *)
Definition handle := list bytes.

Fixpoint resolve (root : bucket) (h : handle) : option bucket :=
  match h with
  | [] => Some root
  | k :: h' =>
      match lookup k root with
      | Some (Bkt items) => resolve items h'
      | _ => None
      end
  end.

Fixpoint modify (root : bucket) (h : handle) (f : bucket -> bucket) : bucket :=
  match h with
  | [] => f root
  | k :: h' =>
      match lookup k root with
      | Some (Bkt items) => insert k (Bkt (modify items h' f)) root
      | _ => root
      end
  end.

Definition MaxKeySize : Z := 32768.
Definition MaxValueSize : Z := 2 ^ 31 - 2.

(** [Bucket.Get]: nil when the key is absent or names a nested bucket. *)
Definition bkt_get (b : bucket) (k : bytes) : option bytes :=
  match lookup k b with
  | Some (Val v) => Some v
  | _ => None
  end.

(** [Bucket.Bucket]: nil when the key is absent or names a value. *)
Definition bkt_sub (b : bucket) (k : bytes) : option bucket :=
  match lookup k b with
  | Some (Bkt items) => Some items
  | _ => None
  end.

(** [Bucket.Put]. *)
Definition bkt_put (b : bucket) (k v : bytes) : result bucket :=
  if Nat.eqb (length k) 0 then Err ErrKeyRequired
  else if MaxKeySize <? Z.of_nat (length k) then Err ErrKeyTooLarge
  else if MaxValueSize <? Z.of_nat (length v) then Err ErrValueTooLarge
  else match lookup k b with
       | Some (Bkt _) => Err ErrIncompatibleValue
       | _ => Ok (insert k (Val v) b)
       end.

(** [Bucket.CreateBucket]. *)
Definition bkt_create (b : bucket) (k : bytes) : result bucket :=
  if Nat.eqb (length k) 0 then Err ErrBucketNameRequired
  else match lookup k b with
       | Some (Bkt _) => Err ErrBucketExists
       | Some (Val _) => Err ErrIncompatibleValue
       | None => Ok (insert k (Bkt []) b)
       end.

(** [Cursor.Last]: the largest key, nil on an empty bucket. *)
Definition bkt_last (b : bucket) : option bytes :=
  match rev b with
  | [] => None
  | (k, _) :: _ => Some k
  end.

(** *** Transactions *)

(** The function run inside a transaction: it reads and writes the
    transaction's view of the root bucket and may return an error. *)
Definition Tx (A : Type) : Type := bucket -> bucket * result A.

Definition ret {A} (a : A) : Tx A := fun root => (root, Ok a).
Definition fail {A} (e : error) : Tx A := fun root => (root, Err e).
Definition bind {A B} (m : Tx A) (f : A -> Tx B) : Tx B :=
  fun root =>
    match m root with
    | (root', Ok a) => f a root'
    | (root', Err e) => (root', Err e)
    end.

Notation "x <- m ;; k" := (bind m (fun x => k))
  (at level 61, m at next level, right associativity).
Notation "m ;;; k" := (bind m (fun _ => k))
  (at level 61, right associativity).

(** [if err != nil { return err }]. *)
Definition check (err : option error) : Tx unit :=
  match err with
  | Some e => fail e
  | None => ret tt
  end.

(** [if x == nil { return fmt.Errorf(...) }]. *)
Definition nonnil {A} (x : option A) (e : error) : Tx A :=
  match x with
  | Some a => ret a
  | None => fail e
  end.

Definition tx_Bucket (h : handle) (name : bytes) : Tx (option handle) :=
  fun root =>
    (root, Ok (match resolve root (h ++ [name]) with
               | Some _ => Some (h ++ [name])
               | None => None
               end)).

Definition tx_Get (h : handle) (k : bytes) : Tx (option bytes) :=
  fun root =>
    (root, Ok (match resolve root h with
               | Some b => bkt_get b k
               | None => None
               end)).

Definition tx_Last (h : handle) : Tx (option bytes) :=
  fun root =>
    (root, Ok (match resolve root h with
               | Some b => bkt_last b
               | None => None
               end)).

(** [Put] hands its error back to the caller, who may ignore it.  On
    success the bucket behind the handle becomes the one [bkt_put] gives,
    [insert k (Val v) b].  A handle was obtained in the running
    transaction, so it always resolves. *)
Definition tx_Put (h : handle) (k v : bytes) : Tx (option error) :=
  fun root =>
    match resolve root h with
    | Some b =>
        match bkt_put b k v with
        | Ok _ => (modify root h (fun b => insert k (Val v) b), Ok None)
        | Err e => (root, Ok (Some e))
        end
    | None => (root, Ok (Some ErrIncompatibleValue))
    end.

Definition tx_CreateBucket (h : handle) (k : bytes) : Tx handle :=
  fun root =>
    match resolve root h with
    | Some b =>
        match bkt_create b k with
        | Ok _ => (modify root h (fun b => insert k (Bkt []) b), Ok (h ++ [k]))
        | Err e => (root, Err e)
        end
    | None => (root, Err ErrIncompatibleValue)
    end.

Definition tx_CreateBucketIfNotExists (h : handle) (k : bytes) : Tx handle :=
  fun root =>
    match tx_CreateBucket h k root with
    | (root', Err ErrBucketExists) => (root', Ok (h ++ [k]))
    | r => r
    end.

(** I/O faults of the storage engine, fixed per call: opening the file
    and committing a transaction may each fail. *)
Record io : Type := mkIo {
  open_err : option Z;
  commit_err : option Z
}.

Definition io_ok : io := mkIo None None.

(** [DB.Update]: runs [fn] in a read-write transaction; an error of [fn]
    rolls the transaction back, otherwise it is committed, and a failed
    commit leaves the file as it was. *)
Definition Update (f : io) (db : DB) (fn : Tx unit) : DB * option error :=
  match fn db with
  | (_, Err e) => (db, Some e)
  | (db', Ok _) =>
      match commit_err f with
      | Some c => (db, Some (ErrStorage c))
      | None => (db', None)
      end
  end.

(** [DB.View]: runs [fn] in a read-only transaction and hands back its
    result; nothing is written. *)
Definition View {A} (db : DB) (fn : Tx A) : result A := snd (fn db).

(** ** The watchtower's records and collaborators *)

(** Modelled from the spec: the struct declarations of
    WatchannelDescriptor, ComMsg and IdxSig are outside the sources.  Their
    fields are those the code reads (a fixed-size Go array is a byte
    string here); [CmSig] is the [Sig] field of ComMsg. *)
Record WatchannelDescriptor : Type := mkWd {
  DestPKHScript : bytes;        (* [20]byte *)
  AdversaryBasePoint : bytes;   (* [33]byte *)
  CustomerBasePoint : bytes;    (* [33]byte *)
  Delay : Z;                    (* uint16 *)
  Fee : Z;                      (* int64 *)
  ElkZero : bytes               (* chainhash.Hash *)
}.

Record ComMsg : Type := mkCm {
  DestPKH : bytes;              (* [20]byte *)
  ParTxid : bytes;              (* the commitment transaction's identifier *)
  Elk : bytes;                  (* chainhash.Hash *)
  CmSig : bytes                 (* [64]byte *)
}.

Record IdxSig : Type := mkIdxSig {
  PKHIdx : Z;                   (* uint32 *)
  StateIdx : Z;                 (* uint64 *)
  Sig : bytes                   (* [64]byte *)
}.

Definition BuildIdxSig (who when : Z) (sig : bytes) : IdxSig :=
  mkIdxSig who when sig.

(** The elkrem package (the revocation hash-tree), taken as an interface:
    [AddNext] mutates the receiver and reports an error; [UpTo] is a
    uint64. *)
Class Elkrem : Type := {
  ElkremReceiver : Type;
  ElkremReceiver_zero : ElkremReceiver;     (* [var elkr ElkremReceiver] *)
  AddNext : ElkremReceiver -> bytes -> ElkremReceiver * option Z;
  UpTo : ElkremReceiver -> Z;
  AtIndex : ElkremReceiver -> Z -> outcome bytes;
  ElkToBytes : ElkremReceiver -> outcome bytes;
  ElkremReceiverFromBytes : bytes -> outcome ElkremReceiver
}.

(** The serialisation of descriptors, declared outside the sources. *)
Class DescCodec : Type := {
  ToBytes : WatchannelDescriptor -> bytes;
  WatchannelDescriptorFromBytes : bytes -> outcome WatchannelDescriptor
}.

(** btcd's wire types, as far as the builder touches them. *)
Record OutPoint : Type := mkOutPoint { Hash : bytes; Index : Z }.

Record TxIn : Type := mkTxIn {
  PreviousOutPoint : OutPoint;
  SignatureScript : bytes;
  Witness : list bytes;
  Sequence : Z
}.

Record TxOut : Type := mkTxOut { Value : Z; PkScript : bytes }.

Record MsgTx : Type := mkMsgTx {
  Version : Z;
  TxIns : list TxIn;
  TxOuts : list TxOut;
  LockTime : Z
}.

Definition TxVersion : Z := 1.
Definition MaxTxInSequenceNum : Z := 4294967295.

Definition NewTxOut (value : Z) (pkScript : bytes) : TxOut :=
  mkTxOut value pkScript.
Definition NewOutPoint (hash : bytes) (index : Z) : OutPoint :=
  mkOutPoint hash index.
Definition NewTxIn (prevOut : OutPoint) (signatureScript : bytes)
    (witness : list bytes) : TxIn :=
  mkTxIn prevOut signatureScript witness MaxTxInSequenceNum.
Definition NewMsgTx : MsgTx := mkMsgTx TxVersion [] [] 0.
Definition AddTxIn (tx : MsgTx) (ti : TxIn) : MsgTx :=
  mkMsgTx (Version tx) (TxIns tx ++ [ti]) (TxOuts tx) (LockTime tx).
Definition AddTxOut (tx : MsgTx) (to : TxOut) : MsgTx :=
  mkMsgTx (Version tx) (TxIns tx) (TxOuts tx ++ [to]) (LockTime tx).

(** Curve, script and signature helpers (btcec, lnutil, sig64) and the
    transaction hash, taken as an interface. *)
Class Chain : Type := {
  PublicKey : Type;
  PrivKeyFromBytes : bytes -> PublicKey;    (* the public half *)
  ParsePubKey : bytes -> outcome PublicKey;
  Combine : list PublicKey -> PublicKey;
  SerializeCompressed : PublicKey -> bytes;
  CommitScript : bytes -> bytes -> Z -> bytes;
  P2WSHify : bytes -> bytes;
  DirectWPKHScriptFromPKH : bytes -> bytes;
  SigDecompress : bytes -> bytes;
  TxHash : MsgTx -> bytes
}.

(** A nil slice is a slice of length 0. *)
Definition slice (o : option bytes) : bytes :=
  match o with
  | Some v => v
  | None => []
  end.

Definition lift {A} (r : outcome A) : Tx A :=
  match r with
  | Good a => ret a
  | Bad c => fail (ErrCollab c)
  end.

(** Modelled from the spec: IdxSigFromBytes is declared outside the
    sources.  decode_hint "fails with MalformedHint if length is not 74";
    the record is [pkh_idx(4) ++ state_idx(6) ++ sig(64)], scalars
    big-endian. *)
Definition MalformedHint : Z := 74.

Definition IdxSigFromBytes (b : bytes) : outcome IdxSig :=
  if Nat.eqb (length b) 74
  then Good (mkIdxSig (be_decode (firstn 4 b))
                      (be_decode (firstn 6 (skipn 4 b)))
                      (skipn 10 b))
  else Bad MalformedHint.

(** ** watchdb.go *)

Definition BUCKETPKHMap : bytes := [x70; x6b; x6d].   (* "pkm" *)
Definition BUCKETChandata : bytes := [x63; x64; x61]. (* "cda" *)
Definition BUCKETTxid : bytes := [x74; x78; x69].     (* "txi" *)

Definition KEYStatic : bytes := [x73; x74; x61].      (* "sta" *)
Definition KEYElkRcv : bytes := [x65; x6c; x6b].      (* "elk" *)
Definition KEYIdx : bytes := [x69; x64; x78].         (* "idx" *)

Definition OpenDB_fn : Tx unit :=
  tx_CreateBucketIfNotExists [] BUCKETPKHMap ;;;
  tx_CreateBucketIfNotExists [] BUCKETChandata ;;;
  tx_CreateBucketIfNotExists [] BUCKETTxid ;;;
  ret tt.

(** [OpenDB]: [file] is the content of the file at [filename], the empty
    root bucket for a file that does not exist yet. *)
Definition OpenDB (f : io) (file : DB) : DB * option error :=
  match open_err f with
  | Some c => (file, Some (ErrStorage c))
  | None => Update f file OpenDB_fn
  end.

Section WatchTower.

Context {elkrem : Elkrem} {codec : DescCodec}.

Definition AddNewChannel_fn (wd : WatchannelDescriptor) : Tx unit :=
  (* open index : pkh mapping bucket *)
  m <- tx_Bucket [] BUCKETPKHMap ;;
  mapBucket <- nonnil m ErrNoPKHmapBucket ;;
  (* figure out this new channel's index *)
  k <- tx_Last mapBucket ;;
  let newIdx := u32 (BtU32 (slice k) + 1) in
  let newIdxBytes := U32tB newIdx in
  a <- tx_Bucket [] BUCKETChandata ;;
  allChanbkt <- nonnil a ErrNoChandataBucket ;;
  (* make new channel bucket *)
  chanBucket <- tx_CreateBucket allChanbkt (DestPKHScript wd) ;;
  (* save truncated descriptor for static info *)
  let wdBytes := ToBytes wd in
  if (length wdBytes <? 96)%nat then fail ErrWatchDescLen else
  _ <- tx_Put chanBucket KEYStatic (firstn 96 wdBytes) ;;
  let elkr := fst (AddNext ElkremReceiver_zero (ElkZero wd)) in
  elkBytes <- lift (ElkToBytes elkr) ;;
  (* save the (first) elkrem receiver *)
  err <- tx_Put chanBucket KEYElkRcv elkBytes ;;
  check err ;;;
  (* save index *)
  err <- tx_Put chanBucket KEYIdx newIdxBytes ;;
  check err ;;;
  (* save into index mapping *)
  err <- tx_Put mapBucket newIdxBytes (DestPKHScript wd) ;;
  check err.

Definition AddNewChannel (f : io) (db : DB) (wd : WatchannelDescriptor)
    : DB * option error :=
  Update f db (AddNewChannel_fn wd).

Definition AddMsg_fn (cm : ComMsg) : Tx unit :=
  (* first get the channel bucket, update the elkrem and read the idx *)
  a <- tx_Bucket [] BUCKETChandata ;;
  allChanbkt <- nonnil a ErrNoChandataBucket ;;
  c <- tx_Bucket allChanbkt (DestPKH cm) ;;
  chanBucket <- nonnil c (ErrNoChannel (DestPKH cm)) ;;
  e <- tx_Get chanBucket KEYElkRcv ;;
  elkr <- lift (ElkremReceiverFromBytes (slice e)) ;;
  (* add next elkrem hash *)
  let (elkr', err) := AddNext elkr (Elk cm) in
  check (option_map ErrCollab err) ;;;
  (* get state number, after elk insertion.  also convert to 8 bytes. *)
  let stateNumBytes := U64tB (UpTo elkr') in
  elkBytes <- lift (ElkToBytes elkr') ;;
  (* then write back to DB. *)
  err <- tx_Put chanBucket KEYElkRcv elkBytes ;;
  check err ;;;
  (* get local index of this channel *)
  i <- tx_Get chanBucket KEYIdx ;;
  cIdxBytes <- nonnil i (ErrNoIndex (DestPKH cm)) ;;
  t <- tx_Bucket [] BUCKETTxid ;;
  txidbkt <- nonnil t ErrNoTxidBucket ;;
  (* create the sigIdx 74 bytes *)
  let sigIdxBytes := make 74 in
  let sigIdxBytes := copy_at sigIdxBytes 0 4 cIdxBytes in
  let sigIdxBytes := copy_at sigIdxBytes 4 10 (skipn 2 stateNumBytes) in
  let sigIdxBytes := copy_at sigIdxBytes 10 74 (CmSig cm) in
  (* save sigIdx into the txid bucket. *)
  err <- tx_Put txidbkt (firstn 8 (ParTxid cm)) sigIdxBytes ;;
  check err.

Definition AddMsg (f : io) (db : DB) (cm : ComMsg) : DB * option error :=
  Update f db (AddMsg_fn cm).

Definition IngestTx_fn (txid : bytes) : Tx (option IdxSig) :=
  (* open the big bucket *)
  t <- tx_Bucket [] BUCKETTxid ;;
  txidbkt <- nonnil t ErrNoTxidBucket ;;
  b <- tx_Get txidbkt (firstn 16 txid) ;;
  match b with
  | None => ret None            (* no hit, finish here. *)
  | Some b =>
      hitsig <- lift (IdxSigFromBytes b) ;;
      ret (Some hitsig)
  end.

(** [IngestTx] returns the pair [(hitsig, err)]. *)
Definition IngestTx (db : DB) (txid : bytes)
    : option IdxSig * option error :=
  match View db (IngestTx_fn txid) with
  | Ok hitsig => (hitsig, None)
  | Err e => (None, Some e)
  end.

End WatchTower.

Section Justice.

Context {elkrem : Elkrem} {codec : DescCodec} {chain : Chain}.

(** The read-only transaction of [BuildJusticeTx]: the static channel
    info and the elkrem receiver of the channel the hint belongs to. *)
Definition BuildJusticeTx_fn (isig : IdxSig)
    : Tx (WatchannelDescriptor * ElkremReceiver) :=
  m <- tx_Bucket [] BUCKETPKHMap ;;
  mapBucket <- nonnil m ErrNoPKHmapBucket ;;
  (* figure out who this Justice belongs to *)
  p <- tx_Get mapBucket (U32tB (PKHIdx isig)) ;;
  pkh <- nonnil p (ErrNoPkhForIndex (PKHIdx isig)) ;;
  c <- tx_Bucket [] BUCKETChandata ;;
  channelBucket <- nonnil c ErrNoChannelBucket ;;
  b <- tx_Bucket channelBucket pkh ;;
  pkhBucket <- nonnil b (ErrNoPkhBucket pkh) ;;
  s <- tx_Get pkhBucket KEYStatic ;;
  static <- nonnil s (ErrNoStatic pkh) ;;
  (* deserialize static watchDescriptor struct *)
  wd <- lift (WatchannelDescriptorFromBytes static) ;;
  (* get the elkrem receiver *)
  e <- tx_Get pkhBucket KEYElkRcv ;;
  elkBytes <- nonnil e (ErrNoElkrem pkh) ;;
  elkRcv <- lift (ElkremReceiverFromBytes elkBytes) ;;
  ret (wd, elkRcv).

(** [for i, out := range badTx.TxOut]: the loop leaves [txoutNum] as it
    was unless an output script equals [shOutputScript], and stops at the
    first that does. *)
Fixpoint range_TxOut (shOutputScript : bytes) (outs : list TxOut) (i : nat)
    (txoutNum : Z) : Z :=
  match outs with
  | [] => txoutNum
  | out :: rest =>
      if bytes_eqb shOutputScript (PkScript out)
      then Z.of_nat i
      else range_TxOut shOutputScript rest (S i) txoutNum
  end.

(** The P2WSH output script the builder looks for in [badTx]. *)
Definition shOutputScript_of (wd : WatchannelDescriptor)
    (elkPoint AttackerBase CustomerBase : PublicKey) : bytes :=
  (* timeout key is the attacker's base point combined with the elk-point *)
  let TimeoutKey := Combine [AttackerBase; elkPoint] in
  (* revocable key is the customer's base point combined with the same *)
  let Revkey := Combine [CustomerBase; elkPoint] in
  let RevArr := copy (make 33) (SerializeCompressed Revkey) in
  let TimeoutArr := copy (make 33) (SerializeCompressed TimeoutKey) in
  let script := CommitScript RevArr TimeoutArr (Delay wd) in
  P2WSHify script.

Definition dummyTxOut : TxOut := mkTxOut 0 [].

(** The pure part of [BuildJusticeTx], after the database has been read. *)
Definition assemble (badTx : MsgTx) (isig : IdxSig)
    (wd : WatchannelDescriptor) (shOutputScript : bytes) : result MsgTx :=
  (* try to match WSH with output from tx *)
  let txoutNum := range_TxOut shOutputScript (TxOuts badTx) 0 999 in
  if txoutNum =? 999 then Err ErrNoMatch else
  let justiceAmt :=
    i64 (Value (nth (Z.to_nat txoutNum) (TxOuts badTx) dummyTxOut) - Fee wd) in
  let justicePkScript := DirectWPKHScriptFromPKH (DestPKHScript wd) in
  (* build the JusticeTX.  First the output *)
  let justiceOut := NewTxOut justiceAmt justicePkScript in
  (* now the input *)
  let badtxid := TxHash badTx in
  let badOP := NewOutPoint badtxid (u32 txoutNum) in
  let justiceIn := NewTxIn badOP [] [] in
  (* expand the sig back to 71 bytes *)
  let bigSig := SigDecompress (Sig isig) in
  (* witness stack is (1, sig) -- 1 means revoked path *)
  let justiceIn :=
    mkTxIn (PreviousOutPoint justiceIn) (SignatureScript justiceIn)
           [[x01]; bigSig] 1 in
  (* add in&out to the the final justiceTx *)
  let justiceTx := NewMsgTx in
  let justiceTx := AddTxIn justiceTx justiceIn in
  let justiceTx := AddTxOut justiceTx justiceOut in
  Ok justiceTx.

Definition BuildJusticeTx (db : DB) (badTx : MsgTx) (isig : IdxSig)
    : result MsgTx :=
  (* open DB and get static channel info *)
  match View db (BuildJusticeTx_fn isig) with
  | Err e => Err e
  | Ok (wd, elkRcv) =>
      (* get the elkrem we need *)
      match AtIndex elkRcv (StateIdx isig) with
      | Bad c => Err (ErrCollab c)
      | Good elkScalarHash =>
          let elkPoint := PrivKeyFromBytes elkScalarHash in
          (* get the attacker's base point, cast to a pubkey *)
          match ParsePubKey (AdversaryBasePoint wd) with
          | Bad c => Err (ErrCollab c)
          | Good AttackerBase =>
              (* get the customer's base point as well *)
              match ParsePubKey (CustomerBasePoint wd) with
              | Bad c => Err (ErrCollab c)
              | Good CustomerBase =>
                  assemble badTx isig wd
                    (shOutputScript_of wd elkPoint AttackerBase CustomerBase)
              end
          end
      end
  end.

End Justice.

(** ** Views of the store *)

(** The three top-level buckets and the per-channel sub-bucket. *)
Definition pkhMap (db : DB) : option bucket := bkt_sub db BUCKETPKHMap.
Definition chanData (db : DB) : option bucket := bkt_sub db BUCKETChandata.
Definition txidIndex (db : DB) : option bucket := bkt_sub db BUCKETTxid.

Definition channel (db : DB) (pkh : bytes) : option bucket :=
  match chanData db with
  | Some cda => bkt_sub cda pkh
  | None => None
  end.

(** A store that [OpenDB] has been through: the three buckets exist. *)
Definition initialised (db : DB) : Prop :=
  pkhMap db <> None /\ chanData db <> None /\ txidIndex db <> None.

(** The hint stored under a key of the hint index. *)
Definition hintAt (db : DB) (key : bytes) : option bytes :=
  match txidIndex db with
  | Some txi => bkt_get txi key
  | None => None
  end.

(** The index [AddNewChannel] computes from the index map:
    [lnutil.BtU32(k) + 1] on the last key, in uint32 arithmetic. *)
Definition nextIndex (pkm : bucket) : Z := u32 (BtU32 (slice (bkt_last pkm)) + 1).

(** The channel bucket [AddNewChannel] writes. *)
Definition newChannel (static elkBytes idxBytes : bytes) : bucket :=
  [(KEYElkRcv, Val elkBytes); (KEYIdx, Val idxBytes); (KEYStatic, Val static)].

(** The 74 bytes [AddMsg] assembles. *)
Definition sigIdxBytes_of (cIdxBytes : bytes) (upTo : Z) (sig : bytes) : bytes :=
  copy_at (copy_at (copy_at (make 74) 0 4 cIdxBytes)
                   4 10 (skipn 2 (U64tB upTo)))
          10 74 sig.

(** ** Dense channel indices *)

(** The index map that holds the channels [pkhs], in the order they were
    added, under the keys [i], [i+1], ... *)
Fixpoint dense_from (i : Z) (pkhs : list bytes) : bucket :=
  match pkhs with
  | [] => []
  | p :: rest => (U32tB i, Val p) :: dense_from (i + 1) rest
  end.

Definition dense (pkhs : list bytes) : bucket := dense_from 0 pkhs.

Definition or_empty (o : option bucket) : bucket :=
  match o with
  | Some b => b
  | None => []
  end.

Section Reachable.

Context {elkrem : Elkrem} {codec : DescCodec}.

(** The stores the watchtower's operations lead to from a file that does
    not exist yet, in any order ([OpenDB] again is a close and reopen),
    counted by the number of successful [AddNewChannel] calls. *)
Inductive reachable : nat -> DB -> Prop :=
| reach_new : reachable 0 []
| reach_open n db f :
    reachable n db -> reachable n (fst (OpenDB f db))
| reach_channel n db f wd db' :
    reachable n db -> AddNewChannel f db wd = (db', None) ->
    reachable (S n) db'
| reach_channel_err n db f wd db' e :
    reachable n db -> AddNewChannel f db wd = (db', Some e) ->
    reachable n db'
| reach_msg n db f cm :
    reachable n db -> reachable n (fst (AddMsg f db cm)).

End Reachable.

(** The invariant of the reachable stores: the index map is the dense map
    of the channels added so far, and each of them has its bucket. *)
Definition indexed (n : nat) (db : DB) : Prop :=
  exists pkhs,
    length pkhs = n /\ NoDup pkhs /\
    ((db = [] /\ n = 0%nat) \/
     (pkhMap db = Some (dense pkhs) /\
      exists cda, chanData db = Some cda /\
                  forall p, In p pkhs -> lookup p cda <> None)).

(** The keys of the hint index are at most 8 bytes long. *)
Definition short_keys (db : DB) : Prop :=
  forall txi q, txidIndex db = Some txi -> (8 < length q)%nat ->
                lookup q txi = None.

(** ** Matching outputs *)

(** Output [n] is the first whose script is byte-equal to [sh]. *)
Definition first_match (sh : bytes) (outs : list TxOut) (n : nat) : Prop :=
  (n < length outs)%nat /\
  PkScript (nth n outs dummyTxOut) = sh /\
  forall i, (i < n)%nat -> PkScript (nth i outs dummyTxOut) <> sh.

Fixpoint find_first (sh : bytes) (outs : list TxOut) : option nat :=
  match outs with
  | [] => None
  | out :: rest =>
      if bytes_eqb sh (PkScript out) then Some 0%nat
      else option_map S (find_first sh rest)
  end.

Section JusticeViews.

Context {elkrem : Elkrem} {codec : DescCodec} {chain : Chain}.

(** The database and the collaborators yield the descriptor [wd] and the
    P2WSH script [sh] for the hint. *)
Definition reconstructs (db : DB) (isig : IdxSig)
    (wd : WatchannelDescriptor) (sh : bytes) : Prop :=
  exists elkRcv elkScalarHash AttackerBase CustomerBase,
    View db (BuildJusticeTx_fn isig) = Ok (wd, elkRcv) /\
    AtIndex elkRcv (StateIdx isig) = Good elkScalarHash /\
    ParsePubKey (AdversaryBasePoint wd) = Good AttackerBase /\
    ParsePubKey (CustomerBasePoint wd) = Good CustomerBase /\
    sh = shOutputScript_of wd (PrivKeyFromBytes elkScalarHash)
           AttackerBase CustomerBase.

(** The transaction that sweeps output [n] of [badTx]. *)
Definition justiceTx_of (badTx : MsgTx) (isig : IdxSig)
    (wd : WatchannelDescriptor) (n : nat) : MsgTx :=
  mkMsgTx TxVersion
    [mkTxIn (mkOutPoint (TxHash badTx) (u32 (Z.of_nat n))) []
            [[x01]; SigDecompress (Sig isig)] 1]
    [mkTxOut (i64 (Value (nth n (TxOuts badTx) dummyTxOut) - Fee wd))
             (DirectWPKHScriptFromPKH (DestPKHScript wd))]
    0.

End JusticeViews.

(** ** Fixtures *)

(** Modelled from the spec: the elkrem package is outside the sources.
    The design document treats the hash-tree as a value with add_next,
    at_index, up_to and a serialisation, where "up_to() after add_next is
    exactly one greater than before" and "at_index(up_to()-1) returns the
    most recently added scalar".  This instance keeps the count and the
    most recent scalar, and serialises them as count(8) ++ scalar. *)
Record counter_receiver : Type := mkCounter { cnt : Z; last_scalar : bytes }.

Definition HashTreeOutOfRange : Z := 1.
Definition MalformedReceiver : Z := 2.

Definition counter_elkrem : Elkrem := {|
  ElkremReceiver := counter_receiver;
  ElkremReceiver_zero := mkCounter 0 [];
  AddNext := fun r s => (mkCounter (u64 (cnt r + 1)) s, None);
  UpTo := cnt;
  AtIndex := fun r n =>
    if n =? cnt r - 1 then Good (last_scalar r) else Bad HashTreeOutOfRange;
  ElkToBytes := fun r => Good (U64tB (cnt r) ++ last_scalar r);
  ElkremReceiverFromBytes := fun b =>
    if (length b <? 8)%nat then Bad MalformedReceiver
    else Good (mkCounter (be_decode (firstn 8 b)) (skipn 8 b))
|}.

(** Modelled from the spec: the descriptor's serialisation is outside the
    sources.  "The serialised static form is exactly 96 bytes:
    dest_pkh ++ adversary_base_point ++ customer_base_point ++ delay ++ fee,
    all big-endian multi-byte fields"; on the wire the 32-byte elk_zero
    follows.  decode_descriptor "fails with MalformedDescriptor if length is
    not 96". *)
Definition MalformedDescriptor : Z := 96.

Definition spec_codec : DescCodec := {|
  ToBytes := fun wd =>
    DestPKHScript wd ++ AdversaryBasePoint wd ++ CustomerBasePoint wd ++
    be_encode 2 (Delay wd) ++ be_encode 8 (Fee wd) ++ ElkZero wd;
  WatchannelDescriptorFromBytes := fun b =>
    if Nat.eqb (length b) 96
    then Good (mkWd (firstn 20 b) (firstn 33 (skipn 20 b))
                    (firstn 33 (skipn 53 b))
                    (be_decode (firstn 2 (skipn 86 b)))
                    (i64 (be_decode (skipn 88 b)))
                    [])
    else Bad MalformedDescriptor
|}.

(** Modelled from the spec: curve, script and signature helpers are
    external collaborators; the design document asks for "any toy curve
    fixture".  Points are their 33 bytes, combining two points adds them
    bytewise modulo 256, and the script helpers frame their arguments. *)
Definition InvalidPoint : Z := 33.

Fixpoint add_bytes (a b : bytes) : bytes :=
  match a, b with
  | x :: a', y :: b' => byte_of (byte_val x + byte_val y) :: add_bytes a' b'
  | _, _ => []
  end.

Definition toy_chain : Chain := {|
  PublicKey := bytes;
  PrivKeyFromBytes := fun s => x02 :: s;
  ParsePubKey := fun b =>
    if Nat.eqb (length b) 33 then Good b else Bad InvalidPoint;
  Combine := fun ks => fold_right add_bytes (repeat xff 33) ks;
  SerializeCompressed := fun k => k;
  CommitScript := fun rev timeout delay => rev ++ timeout ++ be_encode 2 delay;
  P2WSHify := fun script => x00 :: x20 :: firstn 32 script;
  DirectWPKHScriptFromPKH := fun pkh => x00 :: x14 :: pkh;
  SigDecompress := fun sig => x30 :: x45 :: sig;
  TxHash := fun tx =>
    be_encode 32 (Z.of_nat (length (TxOuts tx)) + LockTime tx)
|}.

(** A descriptor, a hint message and the stores they lead to. *)
Definition pkh_of (i : Z) : bytes := be_encode 20 i.

Definition wd_of (i : Z) : WatchannelDescriptor :=
  mkWd (pkh_of i) (x02 :: be_encode 32 7) (x03 :: be_encode 32 9) 144 1000
       (be_encode 32 i).

Definition cm_of (i : Z) (txid : bytes) : ComMsg :=
  mkCm (pkh_of i) txid (be_encode 32 5) (be_encode 64 11).

Definition txid_a : bytes := be_encode 32 (2 ^ 200 + 17).

(** A second identifier with the same first 8 bytes as [txid_a]. *)
Definition txid_b : bytes := be_encode 32 (2 ^ 200 + 18).

Definition db_opened : DB := fst (OpenDB io_ok []).

Definition db_one : DB :=
  fst (@AddNewChannel counter_elkrem spec_codec io_ok db_opened (wd_of 1)).

Definition db_two : DB :=
  fst (@AddNewChannel counter_elkrem spec_codec io_ok db_one (wd_of 2)).

Definition db_hint : DB :=
  fst (@AddMsg counter_elkrem io_ok db_one (cm_of 1 txid_a)).


(** A store that has lost its hint index. *)
Definition db_notxi : DB :=
  filter (fun kv => negb (bytes_eqb (fst kv) BUCKETTxid)) db_one.

(** An identifier that has the first 8 bytes of [txid_a] but not its
    first 16. *)
Definition txid_c : bytes := be_encode 32 (2 ^ 200 + 2 ^ 130 + 17).

(** The number of uint32 indices. *)
Definition full : nat := Z.to_nat 4294967296.

(** The store after the channels of [wd_of 0], ..., [wd_of (n-1)] have
    been added to a fresh store, in this order. *)
Fixpoint channels (n : nat) : DB :=
  match n with
  | O => db_opened
  | S i =>
      fst (@AddNewChannel counter_elkrem spec_codec io_ok (channels i)
             (wd_of (Z.of_nat i)))
  end.

Definition pkhs_upto (n : nat) : list bytes :=
  map (fun i => pkh_of (Z.of_nat i)) (seq 0 n).

(** A hint for state 1 of channel 0, the descriptor the store keeps for
    that channel, the script the toy helpers derive from them, and
    offending transactions around it. *)
Definition isig_one : IdxSig := BuildIdxSig 0 1 (be_encode 64 11).

Definition wd_one : WatchannelDescriptor :=
  mkWd (pkh_of 1) (x02 :: be_encode 32 7) (x03 :: be_encode 32 9) 144 1000 [].

Definition sh_one : bytes :=
  @shOutputScript_of toy_chain wd_one (x02 :: be_encode 32 5)
    (x02 :: be_encode 32 7) (x03 :: be_encode 32 9).

Definition dust : TxOut := mkTxOut 546 [x6a].

(** [n] other outputs, then the revoked one. *)
Definition badTx_at (n : nat) : MsgTx :=
  mkMsgTx 2 [] (repeat dust n ++ [mkTxOut 50000 sh_one]) 0.


(** ** A hash-tree that refuses scalars *)

(** Modelled from the spec: the hash-tree "fails HashTreeReject if the
    primitive refuses (scalar inconsistent with expected position)".  This
    instance is [counter_elkrem] whose [AddNext] takes a scalar after the
    first only when the scalar plus one, bytewise, is the scalar before
    it; a refused scalar leaves the receiver as it was. *)
Definition HashTreeReject : Z := 3.

Definition linked_elkrem : Elkrem := {|
  ElkremReceiver := counter_receiver;
  ElkremReceiver_zero := mkCounter 0 [];
  AddNext := fun r s =>
    if (cnt r =? 0) || bytes_eqb (add_bytes s (repeat x01 32)) (last_scalar r)
    then (mkCounter (u64 (cnt r + 1)) s, None)
    else (r, Some HashTreeReject);
  UpTo := cnt;
  AtIndex := fun r n =>
    if n =? cnt r - 1 then Good (last_scalar r) else Bad HashTreeOutOfRange;
  ElkToBytes := fun r => Good (U64tB (cnt r) ++ last_scalar r);
  ElkremReceiverFromBytes := fun b =>
    if (length b <? 8)%nat then Bad MalformedReceiver
    else Good (mkCounter (be_decode (firstn 8 b)) (skipn 8 b))
|}.

(** A file in which the name of the index map is taken by a value. *)
Definition db_clash : DB := [(BUCKETPKHMap, Val [x00])].

(** A store with its index map and hint index but no channel data. *)
Definition db_nocda : DB :=
  filter (fun kv => negb (bytes_eqb (fst kv) BUCKETChandata)) db_one.

(** [db_one] whose channel has lost its index key. *)
Definition db_noidx : DB :=
  modify db_one [BUCKETChandata; pkh_of 1]
    (filter (fun kv => negb (bytes_eqb (fst kv) KEYIdx))).

(** [db_one] whose channel has lost its static record, and its receiver. *)
Definition db_nosta : DB :=
  modify db_one [BUCKETChandata; pkh_of 1]
    (filter (fun kv => negb (bytes_eqb (fst kv) KEYStatic))).

Definition db_noelk : DB :=
  modify db_one [BUCKETChandata; pkh_of 1]
    (filter (fun kv => negb (bytes_eqb (fst kv) KEYElkRcv))).

(** [db_one] whose channel holds a receiver of 3 bytes. *)
Definition db_badelk : DB :=
  modify db_one [BUCKETChandata; pkh_of 1]
    (insert KEYElkRcv (Val [x01; x02; x03])).

(** Every channel bucket carries a 4-byte index that the index map leads
    back to the channel's key, a static record of 96 bytes and a
    receiver. *)
Definition consistent (db : DB) : Prop :=
  forall pkh chan, channel db pkh = Some chan ->
    exists idx pkm sta,
      bkt_get chan KEYIdx = Some idx /\ length idx = 4%nat /\
      pkhMap db = Some pkm /\ bkt_get pkm idx = Some pkh /\
      bkt_get chan KEYStatic = Some sta /\ length sta = 96%nat /\
      bkt_get chan KEYElkRcv <> None.

(** A store whose hint index holds, under the first 16 bytes of [txid_a],
    a record as [AddMsg] assembles it. *)
Definition db_hint16 : DB :=
  modify db_one [BUCKETTxid]
    (insert (firstn 16 txid_a)
       (Val (sigIdxBytes_of (U32tB 0) (2 ^ 48 + 5) (be_encode 64 11)))).


(** A hint for an index no channel has, and one for a state the receiver
    of channel 0 cannot give. *)
Definition isig_unknown : IdxSig := BuildIdxSig 7 1 (be_encode 64 11).
Definition isig_future : IdxSig := BuildIdxSig 0 5 (be_encode 64 11).

(** [db_one] whose channel-data bucket has been emptied. *)
Definition db_orphan : DB := modify db_one [BUCKETChandata] (fun _ => []).

(** An offending transaction whose revoked output is worth less than the
    fee of [wd_one]. *)
Definition badTx_poor : MsgTx := mkMsgTx 2 [] [mkTxOut 546 sh_one] 0.

(** Every record of the hint index is 74 bytes long, under a key of at
    most 8 bytes. *)
Definition hints_wellformed (db : DB) : Prop :=
  forall key b, hintAt db key = Some b ->
                length b = 74%nat /\ (length key <= 8)%nat.

(** * Part II: properties *)

(** *** Facts about bytes *)

Lemma byte_val_range (b : byte) : 0 <= byte_val b < 256.
Proof.
  unfold byte_val. pose proof (Byte.to_N_bounded b). lia.
Qed.

Lemma byte_val_of (z : Z) : byte_val (byte_of z) = z mod 256.
Proof.
  unfold byte_val, byte_of.
  assert (Hr : 0 <= z mod 256 < 256) by (apply Z.mod_pos_bound; lia).
  destruct (Byte.of_N (Z.to_N (z mod 256))) as [b|] eqn:E.
  - apply Byte.to_of_N in E. rewrite E. lia.
  - apply Byte.of_N_None_iff in E. lia.
Qed.

Lemma byte_of_val (b : byte) : byte_of (byte_val b) = b.
Proof.
  unfold byte_of, byte_val.
  pose proof (Byte.to_N_bounded b) as Hb.
  rewrite Z.mod_small by lia.
  rewrite N2Z.id, Byte.of_to_N. reflexivity.
Qed.

Lemma byte_val_inj (x y : byte) : byte_val x = byte_val y -> x = y.
Proof.
  intros H. rewrite <- (byte_of_val x), <- (byte_of_val y), H. reflexivity.
Qed.

Lemma bytes_compare_refl (a : bytes) : bytes_compare a a = Eq.
Proof.
  induction a as [|x a IH]; simpl; [reflexivity|].
  rewrite Z.compare_refl. exact IH.
Qed.

Lemma bytes_compare_eq (a b : bytes) : bytes_compare a b = Eq -> a = b.
Proof.
  revert b. induction a as [|x a IH]; intros [|y b]; simpl; try discriminate.
  - reflexivity.
  - destruct (Z.compare_spec (byte_val x) (byte_val y)) as [E|E|E];
      try discriminate.
    intros H. apply byte_val_inj in E. apply IH in H. congruence.
Qed.

Lemma bytes_eqb_eq (a b : bytes) : bytes_eqb a b = true <-> a = b.
Proof.
  unfold bytes_eqb. split.
  - destruct (bytes_compare a b) eqn:E; try discriminate.
    intros _. apply bytes_compare_eq, E.
  - intros ->. rewrite bytes_compare_refl. reflexivity.
Qed.

Lemma bytes_eqb_refl (a : bytes) : bytes_eqb a a = true.
Proof. apply bytes_eqb_eq. reflexivity. Qed.

Lemma bytes_eqb_neq (a b : bytes) : a <> b -> bytes_eqb a b = false.
Proof.
  intros H. destruct (bytes_eqb a b) eqn:E; [|reflexivity].
  apply bytes_eqb_eq in E. contradiction.
Qed.

Lemma bytes_eqb_length (a b : bytes) :
  length a <> length b -> bytes_eqb a b = false.
Proof. intros H. apply bytes_eqb_neq. intros ->. apply H. reflexivity. Qed.

Lemma be_encode_length (n : nat) (z : Z) : length (be_encode n z) = n.
Proof. induction n; simpl; congruence. Qed.

Lemma be_decode_acc (b : bytes) (acc : Z) :
  fold_left (fun a x => a * 256 + byte_val x) b acc =
  acc * 256 ^ Z.of_nat (length b) + be_decode b.
Proof.
  unfold be_decode. revert acc.
  induction b as [|y b IH]; intros acc.
  - simpl. lia.
  - cbn [fold_left length]. rewrite IH, (IH (0 * 256 + byte_val y)).
    rewrite Nat2Z.inj_succ, Z.pow_succ_r by lia. ring.
Qed.

Lemma be_decode_app (a b : bytes) :
  be_decode (a ++ b) = be_decode a * 256 ^ Z.of_nat (length b) + be_decode b.
Proof.
  unfold be_decode at 1. rewrite fold_left_app.
  rewrite be_decode_acc. reflexivity.
Qed.

Lemma be_decode_cons (x : byte) (b : bytes) :
  be_decode (x :: b) = byte_val x * 256 ^ Z.of_nat (length b) + be_decode b.
Proof.
  change (x :: b) with ([x] ++ b). rewrite be_decode_app.
  unfold be_decode at 1. simpl. reflexivity.
Qed.

Lemma be_decode_range (b : bytes) :
  0 <= be_decode b < 256 ^ Z.of_nat (length b).
Proof.
  induction b as [|x b IH].
  - unfold be_decode. simpl. lia.
  - rewrite be_decode_cons. pose proof (byte_val_range x).
    cbn [length]. rewrite Nat2Z.inj_succ, Z.pow_succ_r by lia. nia.
Qed.

Lemma be_decode_encode (n : nat) (z : Z) :
  be_decode (be_encode n z) = z mod 256 ^ Z.of_nat n.
Proof.
  induction n as [|n IH].
  - simpl. unfold be_decode. simpl. rewrite Z.mod_1_r. reflexivity.
  - cbn [be_encode]. rewrite be_decode_cons, IH, be_encode_length, byte_val_of.
    rewrite Nat2Z.inj_succ, Z.pow_succ_r by lia.
    assert (Hp : 0 < 256 ^ Z.of_nat n) by (apply Z.pow_pos_nonneg; lia).
    rewrite (Z.mul_comm 256), Z.rem_mul_r by lia. lia.
Qed.

(** Big-endian encodings of equal width sort like the numbers they encode:
    the order of a bolt bucket on fixed-width index keys is numeric. *)
Lemma be_encode_compare (n : nat) (a b : Z) :
  bytes_compare (be_encode n a) (be_encode n b) =
  Z.compare (a mod 256 ^ Z.of_nat n) (b mod 256 ^ Z.of_nat n).
Proof.
  induction n as [|n IH].
  - simpl. rewrite !Z.mod_1_r. reflexivity.
  - cbn [be_encode bytes_compare]. rewrite !byte_val_of, IH.
    rewrite Nat2Z.inj_succ, Z.pow_succ_r by lia.
    set (p := 256 ^ Z.of_nat n).
    assert (Hp : 0 < p) by (apply Z.pow_pos_nonneg; lia).
    rewrite (Z.mul_comm 256), !Z.rem_mul_r by lia.
    pose proof (Z.mod_pos_bound a p Hp) as Ha.
    pose proof (Z.mod_pos_bound b p Hp) as Hb.
    pose proof (Z.mod_pos_bound (a / p) 256 ltac:(lia)) as Hqa.
    pose proof (Z.mod_pos_bound (b / p) 256 ltac:(lia)) as Hqb.
    destruct (Z.compare_spec ((a / p) mod 256) ((b / p) mod 256)) as [E|E|E].
    + rewrite E.
      destruct (Z.compare_spec (a mod p) (b mod p)); symmetry;
        [apply Z.compare_eq_iff | apply Z.compare_lt_iff
        | apply Z.compare_gt_iff]; nia.
    + symmetry. apply Z.compare_lt_iff. nia.
    + symmetry. apply Z.compare_gt_iff. nia.
Qed.

Lemma U32tB_length (i : Z) : length (U32tB i) = 4%nat.
Proof. apply be_encode_length. Qed.

Lemma U64tB_length (i : Z) : length (U64tB i) = 8%nat.
Proof. apply be_encode_length. Qed.

Lemma BtU32_U32tB (i : Z) : BtU32 (U32tB i) = i mod 2 ^ 32.
Proof.
  unfold BtU32, U32tB. rewrite be_encode_length. simpl Nat.eqb.
  rewrite be_decode_encode. reflexivity.
Qed.

Lemma U32tB_compare (a b : Z) :
  0 <= a < 2 ^ 32 -> 0 <= b < 2 ^ 32 ->
  bytes_compare (U32tB a) (U32tB b) = Z.compare a b.
Proof.
  intros Ha Hb. unfold U32tB. rewrite be_encode_compare.
  change (256 ^ Z.of_nat 4) with (2 ^ 32).
  rewrite !Z.mod_small by lia. reflexivity.
Qed.

Lemma U32tB_inj (a b : Z) :
  0 <= a < 2 ^ 32 -> 0 <= b < 2 ^ 32 -> U32tB a = U32tB b -> a = b.
Proof.
  intros Ha Hb E. apply Z.compare_eq_iff.
  rewrite <- U32tB_compare, E by assumption. apply bytes_compare_refl.
Qed.

(** ** Facts about buckets *)

Lemma bytes_compare_Gt_neq (a b : bytes) :
  bytes_compare a b = Gt -> bytes_eqb a b = false.
Proof. unfold bytes_eqb. intros ->. reflexivity. Qed.

Lemma bytes_compare_Lt_neq (a b : bytes) :
  bytes_compare a b = Lt -> bytes_eqb a b = false.
Proof. unfold bytes_eqb. intros ->. reflexivity. Qed.

Lemma lookup_insert_same (k : bytes) (n : node) (b : bucket) :
  lookup k (insert k n b) = Some n.
Proof.
  induction b as [|[k' n'] r IH]; simpl.
  - rewrite bytes_eqb_refl. reflexivity.
  - destruct (bytes_compare k k') eqn:E; simpl.
    + rewrite bytes_eqb_refl. reflexivity.
    + rewrite bytes_eqb_refl. reflexivity.
    + rewrite (bytes_compare_Gt_neq _ _ E). exact IH.
Qed.

Lemma lookup_insert_other (k q : bytes) (n : node) (b : bucket) :
  bytes_eqb q k = false -> lookup q (insert k n b) = lookup q b.
Proof.
  intros Hq. induction b as [|[k' n'] r IH]; simpl.
  - rewrite Hq. reflexivity.
  - destruct (bytes_compare k k') eqn:E; simpl.
    + apply bytes_compare_eq in E. subst k'. rewrite Hq. reflexivity.
    + rewrite Hq. reflexivity.
    + rewrite IH. reflexivity.
Qed.

Lemma insert_insert (k : bytes) (n n' : node) (b : bucket) :
  insert k n (insert k n' b) = insert k n b.
Proof.
  induction b as [|[k' m] r IH]; simpl.
  - rewrite bytes_compare_refl. reflexivity.
  - destruct (bytes_compare k k') eqn:E; simpl.
    + rewrite bytes_compare_refl. reflexivity.
    + rewrite bytes_compare_refl. reflexivity.
    + rewrite E, IH. reflexivity.
Qed.

Lemma lookup_In (k : bytes) (n : node) (b : bucket) :
  lookup k b = Some n -> In (k, n) b.
Proof.
  induction b as [|[k' n'] r IH]; simpl; [discriminate|].
  destruct (bytes_eqb k k') eqn:E.
  - apply bytes_eqb_eq in E. subst k'. intros [= ->]. left. reflexivity.
  - intros H. right. apply IH, H.
Qed.

Lemma lookup_None_notin (k : bytes) (b : bucket) :
  lookup k b = None -> ~ In k (map fst b).
Proof.
  induction b as [|[k' n'] r IH]; simpl; [tauto|].
  destruct (bytes_eqb k k') eqn:E; [discriminate|].
  intros H [Hk|Hk].
  - subst k'. rewrite bytes_eqb_refl in E. discriminate.
  - exact (IH H Hk).
Qed.

(** Inserting a key above every key of the bucket appends it. *)
Lemma insert_above (k : bytes) (n : node) (b : bucket) :
  (forall k', In k' (map fst b) -> bytes_compare k k' = Gt) ->
  insert k n b = b ++ [(k, n)].
Proof.
  induction b as [|[k' n'] r IH]; simpl; intros H; [reflexivity|].
  rewrite (H k') by (left; reflexivity).
  rewrite IH by (intros q Hq; apply H; right; exact Hq). reflexivity.
Qed.

Lemma bkt_last_app (b : bucket) (k : bytes) (n : node) :
  bkt_last (b ++ [(k, n)]) = Some k.
Proof. unfold bkt_last. rewrite rev_unit. reflexivity. Qed.

(** ** Facts about transactions *)

Lemma bkt_put_ok (b : bucket) (k v : bytes) :
  (0 < length k)%nat -> Z.of_nat (length k) <= MaxKeySize ->
  Z.of_nat (length v) <= MaxValueSize -> bkt_sub b k = None ->
  bkt_put b k v = Ok (insert k (Val v) b).
Proof.
  intros Hk Hks Hvs Hsub. unfold bkt_put, bkt_sub in *.
  destruct (length k) eqn:El; [lia|]. cbn [Nat.eqb].
  replace (MaxKeySize <? _) with false by (symmetry; apply Z.ltb_ge; lia).
  replace (MaxValueSize <? _) with false by (symmetry; apply Z.ltb_ge; lia).
  destruct (lookup k b) as [[v'|items]|]; try reflexivity. discriminate.
Qed.

Lemma bkt_put_inv (b b' : bucket) (k v : bytes) :
  bkt_put b k v = Ok b' -> b' = insert k (Val v) b /\ bkt_sub b k = None.
Proof.
  unfold bkt_put, bkt_sub. destruct (Nat.eqb _ _); [discriminate|].
  destruct (_ <? _); [discriminate|]. destruct (_ <? _); [discriminate|].
  destruct (lookup k b) as [[v'|items]|]; try discriminate;
    intros [= <-]; auto.
Qed.

(** The static record always fits: [Put(KEYStatic, wdBytes[:96])] on the
    fresh channel bucket cannot fail, which is why the code may drop its
    error. *)
Lemma bkt_put_static (x : bytes) :
  bkt_put [] KEYStatic (firstn 96 x) = Ok [(KEYStatic, Val (firstn 96 x))].
Proof.
  apply bkt_put_ok; try reflexivity.
  - cbn. lia.
  - cbn. unfold MaxKeySize. lia.
  - pose proof (firstn_le_length 96 x). unfold MaxValueSize. lia.
Qed.

Lemma bkt_create_inv (b b' : bucket) (k : bytes) :
  bkt_create b k = Ok b' -> lookup k b = None /\ (0 < length k)%nat.
Proof.
  unfold bkt_create. destruct (length k); cbn [Nat.eqb]; [discriminate|].
  destruct (lookup k b) as [[v|items]|]; try discriminate.
  intros _. split; [reflexivity|lia].
Qed.

Lemma bkt_create_exists (b items : bucket) (k : bytes) :
  (0 < length k)%nat -> lookup k b = Some (Bkt items) ->
  bkt_create b k = Err ErrBucketExists.
Proof.
  intros Hk Hl. unfold bkt_create. destruct (length k); [lia|].
  cbn [Nat.eqb]. rewrite Hl. reflexivity.
Qed.

(** A failed [Update] leaves the file as it was. *)
Lemma Update_rollback (f : io) (db db' : DB) (fn : Tx unit) (e : error) :
  Update f db fn = (db', Some e) -> db' = db.
Proof.
  unfold Update. destruct (fn db) as [root [[]|e']].
  - destruct (commit_err f); intros [= <-]; reflexivity.
  - intros [= <-]. reflexivity.
Qed.

Lemma Update_commit (f : io) (db db' : DB) (fn : Tx unit) :
  Update f db fn = (db', None) ->
  fn db = (db', Ok tt) /\ commit_err f = None.
Proof.
  unfold Update. destruct (fn db) as [root [[]|e']]; [|discriminate].
  destruct (commit_err f); [discriminate|]. intros [= <-]. auto.
Qed.

Ltac tx_unfold :=
  unfold bind, tx_Bucket, tx_Get, tx_Last, tx_Put, tx_CreateBucket,
    nonnil, check, lift, ret, fail.

Ltac tx_simp :=
  repeat (progress (
    cbn beta iota zeta delta [fst snd app resolve modify];
    rewrite ?lookup_insert_same, ?insert_insert, ?bkt_put_static;
    rewrite ?lookup_insert_other by reflexivity;
    repeat match goal with
           | H : ?x = _ |- context [?x] => rewrite H
           end)).

Ltac tx_done := tx_simp; try (intros; discriminate).

Lemma keys_distinct :
  bytes_eqb BUCKETPKHMap BUCKETChandata = false /\
  bytes_eqb BUCKETTxid BUCKETChandata = false /\
  bytes_eqb BUCKETTxid BUCKETPKHMap = false /\
  bytes_eqb BUCKETChandata BUCKETPKHMap = false /\
  bytes_eqb BUCKETChandata BUCKETTxid = false /\
  bytes_eqb BUCKETPKHMap BUCKETTxid = false /\
  bytes_eqb KEYIdx KEYElkRcv = false /\
  bytes_eqb KEYStatic KEYElkRcv = false.
Proof. repeat split; reflexivity. Qed.

Section StoreFacts.

Context {elkrem : Elkrem} {codec : DescCodec}.

(** What a successful [AddNewChannel] found and what it committed. *)
Lemma AddNewChannel_ok_inv (f : io) (db db' : DB) (wd : WatchannelDescriptor) :
  AddNewChannel f db wd = (db', None) ->
  exists pkm cda elkBytes,
    pkhMap db = Some pkm /\ chanData db = Some cda /\
    lookup (DestPKHScript wd) cda = None /\
    (96 <= length (ToBytes wd))%nat /\
    ElkToBytes (fst (AddNext ElkremReceiver_zero (ElkZero wd))) = Good elkBytes /\
    db' = insert BUCKETPKHMap
            (Bkt (insert (U32tB (nextIndex pkm)) (Val (DestPKHScript wd)) pkm))
            (insert BUCKETChandata
               (Bkt (insert (DestPKHScript wd)
                       (Bkt (newChannel (firstn 96 (ToBytes wd)) elkBytes
                                        (U32tB (nextIndex pkm))))
                       cda))
               db).
Proof.
  intros H. apply Update_commit in H. destruct H as [H _]. revert H.
  unfold AddNewChannel_fn, pkhMap, chanData, bkt_sub, nextIndex, newChannel.
  tx_unfold. tx_simp.
  destruct (lookup BUCKETPKHMap db) as [[v|pkm]|] eqn:Epkm; tx_done.
  destruct (lookup BUCKETChandata db) as [[v|cda]|] eqn:Ecda; tx_done.
  destruct (bkt_create cda (DestPKHScript wd)) eqn:Ecr; tx_done.
  destruct (length (ToBytes wd) <? 96)%nat eqn:Elen; tx_done.
  destruct (ElkToBytes _) as [elkBytes|] eqn:Eelk; tx_done.
  destruct (bkt_put _ KEYElkRcv _) eqn:Ep1; tx_done.
  destruct (bkt_put _ KEYIdx _) eqn:Ep2; tx_done.
  destruct (bkt_put pkm _ _) eqn:Ep3; tx_done.
  intros [= <-].
  exists pkm, cda, elkBytes. apply bkt_create_inv in Ecr.
  apply Nat.ltb_ge in Elen. repeat split; try tauto.
Qed.

(** When [AddNewChannel] goes through. *)
Lemma AddNewChannel_ok_intro (f : io) (db : DB) (wd : WatchannelDescriptor)
    (pkm cda : bucket) (elkBytes : bytes) :
  commit_err f = None ->
  pkhMap db = Some pkm -> chanData db = Some cda ->
  (0 < length (DestPKHScript wd))%nat ->
  Z.of_nat (length (DestPKHScript wd)) <= MaxValueSize ->
  lookup (DestPKHScript wd) cda = None ->
  (96 <= length (ToBytes wd))%nat ->
  ElkToBytes (fst (AddNext ElkremReceiver_zero (ElkZero wd))) = Good elkBytes ->
  Z.of_nat (length elkBytes) <= MaxValueSize ->
  bkt_sub pkm (U32tB (nextIndex pkm)) = None ->
  AddNewChannel f db wd =
    (insert BUCKETPKHMap
       (Bkt (insert (U32tB (nextIndex pkm)) (Val (DestPKHScript wd)) pkm))
       (insert BUCKETChandata
          (Bkt (insert (DestPKHScript wd)
                  (Bkt (newChannel (firstn 96 (ToBytes wd)) elkBytes
                                   (U32tB (nextIndex pkm))))
                  cda))
          db), None).
Proof.
  intros Hc Hpkm Hcda Hk Hks Hfresh Hlen Helk Hes Hidx.
  unfold AddNewChannel, Update, AddNewChannel_fn.
  unfold pkhMap, chanData, bkt_sub in Hpkm, Hcda.
  destruct (lookup BUCKETPKHMap db) as [[v|pkm0]|] eqn:Epkm; try discriminate.
  destruct (lookup BUCKETChandata db) as [[v|cda0]|] eqn:Ecda; try discriminate.
  injection Hpkm as ->. injection Hcda as ->.
  assert (Ecr : bkt_create cda (DestPKHScript wd) =
                Ok (insert (DestPKHScript wd) (Bkt []) cda)).
  { unfold bkt_create. destruct (length (DestPKHScript wd)); [lia|].
    cbn [Nat.eqb]. rewrite Hfresh. reflexivity. }
  apply Nat.ltb_ge in Hlen.
  fold (nextIndex pkm).
  tx_unfold. tx_simp.
  rewrite bkt_put_ok;
    [| cbn; lia | cbn; unfold MaxKeySize; lia | lia | reflexivity ].
  tx_simp.
  rewrite bkt_put_ok;
    [| cbn; lia | cbn; unfold MaxKeySize; lia
     | rewrite U32tB_length; unfold MaxValueSize; lia | reflexivity ].
  tx_simp.
  unfold nextIndex in Hidx |- *.
  rewrite bkt_put_ok;
    [| rewrite U32tB_length; lia
     | rewrite U32tB_length; unfold MaxKeySize; lia | lia | exact Hidx ].
  tx_simp. reflexivity.
Qed.

(** What a successful [AddMsg] found and what it committed. *)
Lemma AddMsg_ok_inv (f : io) (db db' : DB) (cm : ComMsg) :
  AddMsg f db cm = (db', None) ->
  exists cda chan elkr elkr' elkBytes cIdxBytes txi,
    chanData db = Some cda /\ bkt_sub cda (DestPKH cm) = Some chan /\
    ElkremReceiverFromBytes (slice (bkt_get chan KEYElkRcv)) = Good elkr /\
    AddNext elkr (Elk cm) = (elkr', None) /\
    ElkToBytes elkr' = Good elkBytes /\
    bkt_get chan KEYIdx = Some cIdxBytes /\
    txidIndex db = Some txi /\
    db' = insert BUCKETTxid
            (Bkt (insert (firstn 8 (ParTxid cm))
                    (Val (sigIdxBytes_of cIdxBytes (UpTo elkr') (CmSig cm)))
                    txi))
            (insert BUCKETChandata
               (Bkt (insert (DestPKH cm)
                       (Bkt (insert KEYElkRcv (Val elkBytes) chan)) cda))
               db).
Proof.
  intros H. apply Update_commit in H. destruct H as [H _]. revert H.
  unfold AddMsg_fn, chanData, txidIndex, bkt_sub, bkt_get, sigIdxBytes_of.
  tx_unfold. tx_simp.
  destruct (lookup BUCKETChandata db) as [[v|cda]|] eqn:Ecda; tx_done.
  destruct (lookup (DestPKH cm) cda) as [[v|chan]|] eqn:Echan; tx_done.
  unfold bkt_get.
  destruct (ElkremReceiverFromBytes _) as [elkr|] eqn:Efrom; tx_done.
  destruct (AddNext elkr (Elk cm)) as [elkr' [e|]] eqn:Eadd;
    cbn [option_map]; tx_done.
  destruct (ElkToBytes elkr') as [elkBytes|] eqn:Eto; tx_done.
  destruct (bkt_put chan KEYElkRcv elkBytes) eqn:Ep1; tx_done.
  destruct (lookup KEYIdx chan) as [[cIdxBytes|items]|] eqn:Eidx; tx_done.
  destruct (lookup BUCKETTxid db) as [[v|txi]|] eqn:Etxi; tx_done.
  destruct (bkt_put txi _ _) eqn:Ep2; tx_done.
  intros [= <-].
  exists cda, chan, elkr, elkr', elkBytes, cIdxBytes, txi.
  rewrite Echan, Eidx. repeat split; try reflexivity; assumption.
Qed.

End StoreFacts.

(** ** The 74-byte hint *)

Lemma firstn_app_l {A} (n : nat) (a b : list A) :
  length a = n -> firstn n (a ++ b) = a.
Proof.
  intros <-. rewrite firstn_app, Nat.sub_diag, firstn_all. simpl.
  apply app_nil_r.
Qed.

Lemma skipn_app_l {A} (n : nat) (a b : list A) :
  length a = n -> skipn n (a ++ b) = b.
Proof.
  intros <-. rewrite skipn_app, Nat.sub_diag, skipn_all. reflexivity.
Qed.

Lemma copy_length (dst src : bytes) : length (copy dst src) = length dst.
Proof.
  unfold copy. rewrite length_app, length_firstn, length_skipn. lia.
Qed.

Lemma copy_exact (dst src : bytes) :
  length src = length dst -> copy dst src = src.
Proof.
  intros H. unfold copy. rewrite <- H, firstn_all, skipn_all2 by lia.
  apply app_nil_r.
Qed.

Lemma make_length (n : nat) : length (make n) = n.
Proof. apply repeat_length. Qed.

Lemma skipn_U64tB (z : Z) : skipn 2 (U64tB z) = be_encode 6 z.
Proof. reflexivity. Qed.

(** The layout of the record: index(4) ++ state(6) ++ signature(64). *)
Lemma sigIdxBytes_layout (cIdxBytes sig : bytes) (upTo : Z) :
  sigIdxBytes_of cIdxBytes upTo sig =
  copy (make 4) cIdxBytes ++ be_encode 6 upTo ++ copy (make 64) sig.
Proof.
  unfold sigIdxBytes_of. rewrite skipn_U64tB.
  set (A := copy (make 4) cIdxBytes).
  assert (HA : length A = 4%nat) by (unfold A; rewrite copy_length; reflexivity).
  assert (E1 : copy_at (make 74) 0 4 cIdxBytes = A ++ make 70) by reflexivity.
  rewrite E1. clear E1.
  assert (E2 : copy_at (A ++ make 70) 4 10 (be_encode 6 upTo) =
               A ++ be_encode 6 upTo ++ make 64).
  { unfold copy_at. rewrite (firstn_app_l 4) by exact HA.
    rewrite (skipn_app_l 4) by exact HA.
    change (firstn (10 - 4) (make 70)) with (make 6).
    rewrite copy_exact by (rewrite be_encode_length; reflexivity).
    change 10%nat with (6 + 4)%nat. rewrite <- skipn_skipn.
    rewrite (skipn_app_l 4) by exact HA. reflexivity. }
  rewrite E2. clear E2.
  unfold copy_at. rewrite !(app_assoc A).
  assert (HAB : length (A ++ be_encode 6 upTo) = 10%nat)
    by (rewrite length_app, HA, be_encode_length; reflexivity).
  rewrite (firstn_app_l 10) by exact HAB.
  rewrite (skipn_app_l 10) by exact HAB.
  change (firstn (74 - 10) (make 64)) with (make 64).
  rewrite skipn_all2
    by (rewrite length_app, HAB, make_length; apply Nat.le_refl).
  rewrite app_nil_r, <- app_assoc. reflexivity.
Qed.

Lemma sigIdxBytes_length (cIdxBytes sig : bytes) (upTo : Z) :
  length (sigIdxBytes_of cIdxBytes upTo sig) = 74%nat.
Proof.
  rewrite sigIdxBytes_layout, !length_app, !copy_length, be_encode_length.
  reflexivity.
Qed.


(** ** Properties of [AddNewChannel] *)

Lemma bkt_create_err (b : bucket) (k : bytes) (e : error) :
  bkt_create b k = Err e ->
  e = ErrBucketNameRequired \/ e = ErrBucketExists \/ e = ErrIncompatibleValue.
Proof.
  unfold bkt_create. destruct (Nat.eqb _ _); [intros [= <-]; auto|].
  destruct (lookup k b) as [[v|items]|]; intros [= <-]; auto.
Qed.

Lemma bkt_put_err (b : bucket) (k v : bytes) (e : error) :
  bkt_put b k v = Err e ->
  e = ErrKeyRequired \/ e = ErrKeyTooLarge \/ e = ErrValueTooLarge \/
  e = ErrIncompatibleValue.
Proof.
  unfold bkt_put. destruct (Nat.eqb _ _); [intros [= <-]; auto|].
  destruct (_ <? _); [intros [= <-]; auto|].
  destruct (_ <? _); [intros [= <-]; auto|].
  destruct (lookup k b) as [[v'|items]|]; intros [= <-]; auto.
Qed.

Section ChannelFacts.

Context {elkrem : Elkrem} {codec : DescCodec}.

(** The length error comes from the guard [len(wdBytes) < 96] and from
    nowhere else. *)
Lemma AddNewChannel_len_err (f : io) (db db' : DB) (wd : WatchannelDescriptor) :
  AddNewChannel f db wd = (db', Some ErrWatchDescLen) ->
  (length (ToBytes wd) < 96)%nat.
Proof.
  unfold AddNewChannel, Update, AddNewChannel_fn.
  tx_unfold. tx_simp.
  destruct (lookup BUCKETPKHMap db) as [[v|pkm]|] eqn:Epkm; tx_done.
  destruct (lookup BUCKETChandata db) as [[v|cda]|] eqn:Ecda; tx_done.
  destruct (bkt_create cda (DestPKHScript wd)) as [b|e] eqn:Ecr; tx_simp.
  2:{ intros [= _ ->]. apply bkt_create_err in Ecr.
      destruct Ecr as [|[|]]; discriminate. }
  destruct (length (ToBytes wd) <? 96)%nat eqn:Elen; tx_simp.
  { intros _. apply Nat.ltb_lt, Elen. }
  destruct (ElkToBytes _) as [elkBytes|] eqn:Eelk; tx_done.
  destruct (bkt_put _ KEYElkRcv _) as [b1|e] eqn:Ep1; tx_simp.
  2:{ intros [= _ ->]. apply bkt_put_err in Ep1.
      destruct Ep1 as [|[|[|]]]; discriminate. }
  destruct (bkt_put _ KEYIdx _) as [b2|e] eqn:Ep2; tx_simp.
  2:{ intros [= _ ->]. apply bkt_put_err in Ep2.
      destruct Ep2 as [|[|[|]]]; discriminate. }
  destruct (bkt_put pkm _ _) as [b3|e] eqn:Ep3; tx_simp.
  2:{ intros [= _ ->]. apply bkt_put_err in Ep3.
      destruct Ep3 as [|[|[|]]]; discriminate. }
  destruct (commit_err f); discriminate.
Qed.

(** The guard fires on every shorter encoding that reaches it. *)
Lemma AddNewChannel_short (f : io) (db : DB) (wd : WatchannelDescriptor)
    (pkm cda : bucket) :
  pkhMap db = Some pkm -> chanData db = Some cda ->
  (0 < length (DestPKHScript wd))%nat ->
  lookup (DestPKHScript wd) cda = None ->
  (length (ToBytes wd) < 96)%nat ->
  AddNewChannel f db wd = (db, Some ErrWatchDescLen).
Proof.
  intros Hpkm Hcda Hk Hfresh Hlen.
  unfold AddNewChannel, Update, AddNewChannel_fn.
  unfold pkhMap, chanData, bkt_sub in Hpkm, Hcda.
  destruct (lookup BUCKETPKHMap db) as [[v|pkm0]|] eqn:Epkm; try discriminate.
  destruct (lookup BUCKETChandata db) as [[v|cda0]|] eqn:Ecda; try discriminate.
  injection Hpkm as ->. injection Hcda as ->.
  assert (Ecr : bkt_create cda (DestPKHScript wd) =
                Ok (insert (DestPKHScript wd) (Bkt []) cda)).
  { unfold bkt_create. destruct (length (DestPKHScript wd)); [lia|].
    cbn [Nat.eqb]. rewrite Hfresh. reflexivity. }
  apply Nat.ltb_lt in Hlen.
  tx_unfold. tx_simp. reflexivity.
Qed.

(** A channel bucket under the descriptor's key makes [CreateBucket], and
    with it the call, fail with bolt's [ErrBucketExists]. *)
Lemma AddNewChannel_exists (f : io) (db : DB) (wd : WatchannelDescriptor)
    (chan : bucket) :
  pkhMap db <> None -> (0 < length (DestPKHScript wd))%nat ->
  channel db (DestPKHScript wd) = Some chan ->
  AddNewChannel f db wd = (db, Some ErrBucketExists).
Proof.
  intros Hpkm Hk Hchan.
  unfold AddNewChannel, Update, AddNewChannel_fn.
  unfold pkhMap, channel, chanData, bkt_sub in Hpkm, Hchan.
  destruct (lookup BUCKETPKHMap db) as [[v|pkm]|] eqn:Epkm; try congruence.
  destruct (lookup BUCKETChandata db) as [[v|cda]|] eqn:Ecda; try discriminate.
  destruct (lookup (DestPKHScript wd) cda) as [[v|c]|] eqn:Ec; try discriminate.
  pose proof (bkt_create_exists cda c _ Hk Ec) as Ecr.
  tx_unfold. tx_simp. reflexivity.
Qed.

End ChannelFacts.

Section ChannelProperties.

Context {elkrem : Elkrem} {codec : DescCodec}.

(** The channel bucket and the index entry a successful [AddNewChannel]
    leaves behind. *)
Lemma AddNewChannel_ok_view (f : io) (db db' : DB) (wd : WatchannelDescriptor) :
  AddNewChannel f db wd = (db', None) ->
  exists pkm elkBytes,
    pkhMap db = Some pkm /\
    (96 <= length (ToBytes wd))%nat /\
    channel db' (DestPKHScript wd) =
      Some (newChannel (firstn 96 (ToBytes wd)) elkBytes
                       (U32tB (nextIndex pkm))) /\
    pkhMap db' =
      Some (insert (U32tB (nextIndex pkm)) (Val (DestPKHScript wd)) pkm) /\
    txidIndex db' = txidIndex db.
Proof.
  intros H. apply AddNewChannel_ok_inv in H.
  destruct H as (pkm & cda & elkBytes & Hpkm & Hcda & Hfresh & Hlen & Helk & ->).
  exists pkm, elkBytes. repeat split; try assumption.
  - unfold channel, chanData, bkt_sub.
    rewrite lookup_insert_other by reflexivity.
    rewrite lookup_insert_same, lookup_insert_same. reflexivity.
  - unfold pkhMap, bkt_sub. rewrite lookup_insert_same. reflexivity.
  - unfold txidIndex, bkt_sub. rewrite !lookup_insert_other by reflexivity.
    reflexivity.
Qed.

(** C10: a descriptor whose serialised form has at least 96 bytes is never
    rejected on length, a successful AddNewChannel stores exactly the first
    96 bytes of the serialisation under the channel's static key, and the
    length error is returned only for encodings shorter than 96 bytes. *)
Theorem AddNewChannel_keeps_first_96
    (f : io) (db : DB) (wd : WatchannelDescriptor) :
  ((96 <= length (ToBytes wd))%nat ->
     snd (AddNewChannel f db wd) <> Some ErrWatchDescLen) /\
  (forall db', AddNewChannel f db wd = (db', None) ->
     exists chan,
       channel db' (DestPKHScript wd) = Some chan /\
       bkt_get chan KEYStatic = Some (firstn 96 (ToBytes wd)) /\
       length (firstn 96 (ToBytes wd)) = 96%nat) /\
  (forall db', AddNewChannel f db wd = (db', Some ErrWatchDescLen) ->
     (length (ToBytes wd) < 96)%nat).
Proof.
  split; [|split].
  - intros Hlen H. destruct (AddNewChannel f db wd) as [db' r] eqn:E.
    cbn [snd] in H. subst r. apply AddNewChannel_len_err in E. lia.
  - intros db' H. apply AddNewChannel_ok_view in H.
    destruct H as (pkm & elkBytes & _ & Hlen & Hchan & _).
    eexists. split; [exact Hchan|]. split; [reflexivity|].
    apply firstn_length_le, Hlen.
  - intros db' H. exact (AddNewChannel_len_err _ _ _ _ H).
Qed.

(** C9 (amended): a successful AddNewChannel hands the caller nothing but
    the nil error; the index it assigned is the one it has written under
    the channel's idx key and as the new key of the index map, where that
    key leads to the descriptor's dest_pkh. *)
Theorem AddNewChannel_persists_index
    (f : io) (db db' : DB) (wd : WatchannelDescriptor) :
  AddNewChannel f db wd = (db', None) ->
  exists pkm chan pkm',
    pkhMap db = Some pkm /\
    channel db' (DestPKHScript wd) = Some chan /\
    bkt_get chan KEYIdx = Some (U32tB (nextIndex pkm)) /\
    pkhMap db' = Some pkm' /\
    bkt_get pkm' (U32tB (nextIndex pkm)) = Some (DestPKHScript wd).
Proof.
  intros H. apply AddNewChannel_ok_view in H.
  destruct H as (pkm & elkBytes & Hpkm & _ & Hchan & Hpkm' & _).
  exists pkm. eexists. eexists.
  split; [exact Hpkm|]. split; [exact Hchan|]. split; [reflexivity|].
  split; [exact Hpkm'|].
  unfold bkt_get. rewrite lookup_insert_same. reflexivity.
Qed.

End ChannelProperties.

Lemma AddNewChannel_keeps_first_96_witness :
  length (@ToBytes spec_codec (wd_of 1)) = 128%nat /\
  snd (@AddNewChannel counter_elkrem spec_codec io_ok db_opened (wd_of 1)) <>
    Some ErrWatchDescLen /\
  exists chan,
    channel db_one (pkh_of 1) = Some chan /\
    bkt_get chan KEYStatic = Some (firstn 96 (@ToBytes spec_codec (wd_of 1))).
Proof.
  destruct (@AddNewChannel_keeps_first_96
              counter_elkrem spec_codec io_ok db_opened (wd_of 1))
    as (Hno & Hok & _).
  split; [reflexivity|]. split.
  - apply Hno. apply Nat.leb_le. vm_compute. reflexivity.
  - destruct (Hok db_one) as (chan & Hchan & Hsta & _).
    + vm_compute. reflexivity.
    + exists chan. split; assumption.
Defined.

Lemma AddNewChannel_persists_index_witness :
  exists pkm chan pkm',
    pkhMap db_one = Some pkm /\
    channel db_two (pkh_of 2) = Some chan /\
    bkt_get chan KEYIdx = Some (U32tB (nextIndex pkm)) /\
    pkhMap db_two = Some pkm' /\
    bkt_get pkm' (U32tB (nextIndex pkm)) = Some (pkh_of 2).
Proof.
  apply (@AddNewChannel_persists_index
           counter_elkrem spec_codec io_ok db_one db_two (wd_of 2)).
  vm_compute. reflexivity.
Defined.

(** C9, as stated, fails: the calls that assign the indices 0 and 1 hand
    the caller the same value, the nil error, and nothing else. *)
Lemma AddNewChannel_returns_no_index :
  snd (@AddNewChannel counter_elkrem spec_codec io_ok db_opened (wd_of 1)) =
  snd (@AddNewChannel counter_elkrem spec_codec io_ok db_one (wd_of 2)) /\
  (exists chan, channel db_one (pkh_of 1) = Some chan /\
                bkt_get chan KEYIdx = Some (U32tB 0)) /\
  (exists chan, channel db_two (pkh_of 2) = Some chan /\
                bkt_get chan KEYIdx = Some (U32tB 1)).
Proof.
  split; [vm_compute; reflexivity|].
  split; eexists; split; vm_compute; reflexivity.
Qed.

(** ** Properties of [AddMsg] and [IngestTx] *)

Section HintFacts.

Context {elkrem : Elkrem}.


(** What readers see after a successful [AddMsg]. *)
Lemma AddMsg_ok_view (f : io) (db db' : DB) (cm : ComMsg) :
  AddMsg f db cm = (db', None) ->
  exists chan elkr elkr' elkBytes cIdxBytes,
    channel db (DestPKH cm) = Some chan /\
    ElkremReceiverFromBytes (slice (bkt_get chan KEYElkRcv)) = Good elkr /\
    AddNext elkr (Elk cm) = (elkr', None) /\
    ElkToBytes elkr' = Good elkBytes /\
    bkt_get chan KEYIdx = Some cIdxBytes /\
    channel db' (DestPKH cm) = Some (insert KEYElkRcv (Val elkBytes) chan) /\
    hintAt db' (firstn 8 (ParTxid cm)) =
      Some (sigIdxBytes_of cIdxBytes (UpTo elkr') (CmSig cm)) /\
    (forall key, bytes_eqb key (firstn 8 (ParTxid cm)) = false ->
       hintAt db' key = hintAt db key) /\
    pkhMap db' = pkhMap db.
Proof.
  intros H. apply AddMsg_ok_inv in H.
  destruct H as (cda & chan & elkr & elkr' & elkBytes & cIdxBytes & txi &
                 Hcda & Hchan & Hfrom & Hadd & Hto & Hidx & Htxi & ->).
  exists chan, elkr, elkr', elkBytes, cIdxBytes.
  unfold channel. rewrite Hcda.
  repeat split; try assumption.
  - unfold chanData, bkt_sub.
    rewrite lookup_insert_other by reflexivity.
    rewrite lookup_insert_same, lookup_insert_same. reflexivity.
  - unfold hintAt, txidIndex, bkt_sub, bkt_get.
    rewrite lookup_insert_same, lookup_insert_same. reflexivity.
  - intros key Hkey. unfold hintAt. rewrite Htxi.
    unfold txidIndex, bkt_sub, bkt_get.
    rewrite lookup_insert_same, lookup_insert_other by exact Hkey.
    reflexivity.
  - unfold pkhMap, bkt_sub. rewrite !lookup_insert_other by reflexivity.
    reflexivity.
Qed.

(** [IngestTx] is a read of the hint index under the first 16 bytes. *)
Lemma IngestTx_miss (db : DB) (txid : bytes) :
  txidIndex db <> None -> hintAt db (firstn 16 txid) = None ->
  IngestTx db txid = (None, None).
Proof.
  unfold hintAt, txidIndex, bkt_sub.
  destruct (lookup BUCKETTxid db) as [[v|txi]|] eqn:Etxi; try congruence.
  intros _ H.
  unfold IngestTx, View, IngestTx_fn. tx_unfold.
  cbn [app resolve]. rewrite Etxi. cbn [app resolve]. rewrite Etxi, H.
  reflexivity.
Qed.

End HintFacts.

Section HintProperties.

Context {elkrem : Elkrem}.

Lemma firstn_length_exact {A} (n : nat) (l : list A) :
  (n <= length l)%nat -> length (firstn n l) = n.
Proof. intros H. rewrite length_firstn. lia. Qed.

Lemma prefix16_not_prefix8 (txid : bytes) :
  (16 <= length txid)%nat ->
  bytes_eqb (firstn 16 txid) (firstn 8 txid) = false.
Proof.
  intros H. apply bytes_eqb_length.
  rewrite !firstn_length_exact by lia. discriminate.
Qed.

(** C2: the 74-byte record of AddMsg goes under the first 8 bytes of the
    transaction identifier, not the first 16, whose slot in the hint index
    is left as it was; the write itself is unconditional, so a later hint
    with the same 8-byte prefix replaces the record. *)
Theorem AddMsg_key_is_first_8_bytes (f : io) (db db' : DB) (cm : ComMsg) :
  AddMsg f db cm = (db', None) ->
  (16 <= length (ParTxid cm))%nat ->
  exists hint,
    hintAt db' (firstn 8 (ParTxid cm)) = Some hint /\
    length hint = 74%nat /\
    hintAt db' (firstn 16 (ParTxid cm)) = hintAt db (firstn 16 (ParTxid cm)).
Proof.
  intros H Hlen. apply AddMsg_ok_view in H.
  destruct H as (chan & elkr & elkr' & elkBytes & cIdxBytes & _ & _ & _ & _ &
                 _ & _ & Hhint & Hother & _).
  eexists. split; [exact Hhint|]. split; [apply sigIdxBytes_length|].
  apply Hother, prefix16_not_prefix8, Hlen.
Qed.


(** C6: an AddMsg that returns an error -- from any step of the
    transaction's function, also after it has written the receiver, or
    from the commit after all its writes -- leaves the store as it was;
    an AddMsg that succeeds shows both the new receiver and the hint. *)
Theorem AddMsg_no_partial_commit (f : io) (db : DB) (cm : ComMsg) :
  (forall root' e, AddMsg_fn cm db = (root', Err e) ->
     AddMsg f db cm = (db, Some e)) /\
  (forall root' c, AddMsg_fn cm db = (root', Ok tt) ->
     commit_err f = Some c -> AddMsg f db cm = (db, Some (ErrStorage c))) /\
  (forall db' e, AddMsg f db cm = (db', Some e) -> db' = db) /\
  (forall db', AddMsg f db cm = (db', None) ->
     exists chan elkr elkr' elkBytes chan' hint,
       channel db (DestPKH cm) = Some chan /\
       ElkremReceiverFromBytes (slice (bkt_get chan KEYElkRcv)) = Good elkr /\
       AddNext elkr (Elk cm) = (elkr', None) /\
       ElkToBytes elkr' = Good elkBytes /\
       channel db' (DestPKH cm) = Some chan' /\
       bkt_get chan' KEYElkRcv = Some elkBytes /\
       hintAt db' (firstn 8 (ParTxid cm)) = Some hint).
Proof.
  split; [|split; [|split]].
  - intros root' e H. unfold AddMsg, Update. rewrite H. reflexivity.
  - intros root' c H Hc. unfold AddMsg, Update. rewrite H, Hc. reflexivity.
  - intros db' e H. exact (Update_rollback _ _ _ _ _ H).
  - intros db' H. apply AddMsg_ok_view in H.
    destruct H as (chan & elkr & elkr' & elkBytes & cIdxBytes & Hchan & Hfrom &
                   Hadd & Hto & _ & Hchan' & Hhint & _).
    exists chan, elkr, elkr', elkBytes. eexists. eexists.
    repeat (split; [eassumption|]).
    split; [|exact Hhint].
    unfold bkt_get. rewrite lookup_insert_same. reflexivity.
Qed.

End HintProperties.

Lemma AddMsg_key_is_first_8_bytes_witness :
  exists hint,
    hintAt db_hint (firstn 8 txid_a) = Some hint /\
    length hint = 74%nat /\
    hintAt db_hint (firstn 16 txid_a) = hintAt db_one (firstn 16 txid_a).
Proof.
  apply (@AddMsg_key_is_first_8_bytes counter_elkrem io_ok db_one db_hint
           (cm_of 1 txid_a)).
  - vm_compute. reflexivity.
  - apply Nat.leb_le. vm_compute. reflexivity.
Defined.

(** Two identifiers that differ within their first 16 bytes but agree on
    the first 8 share one slot: the later hint replaces the earlier. *)
Lemma AddMsg_collides_on_8_bytes :
  firstn 16 txid_a <> firstn 16 txid_c /\
  hintAt db_hint (firstn 8 txid_a) <>
  hintAt (fst (@AddMsg counter_elkrem io_ok db_hint (cm_of 1 txid_c)))
         (firstn 8 txid_a).
Proof. split; vm_compute; discriminate. Qed.



Lemma AddMsg_no_partial_commit_witness :
  (* the commit fails after every write of the transaction *)
  fst (@AddMsg_fn counter_elkrem (cm_of 1 txid_a) db_one) <> db_one /\
  @AddMsg counter_elkrem (mkIo None (Some 28)) db_one (cm_of 1 txid_a) =
    (db_one, Some (ErrStorage 28)) /\
  (* the function fails after it has written the receiver *)
  fst (@AddMsg_fn counter_elkrem (cm_of 1 txid_a) db_notxi) <> db_notxi /\
  @AddMsg counter_elkrem io_ok db_notxi (cm_of 1 txid_a) =
    (db_notxi, Some ErrNoTxidBucket).
Proof.
  destruct (@AddMsg_no_partial_commit counter_elkrem (mkIo None (Some 28))
              db_one (cm_of 1 txid_a)) as (_ & Hcommit & _).
  destruct (@AddMsg_no_partial_commit counter_elkrem io_ok
              db_notxi (cm_of 1 txid_a)) as (Hfn & _).
  split; [vm_compute; discriminate|].
  split; [eapply Hcommit; vm_compute; reflexivity|].
  split; [vm_compute; discriminate|].
  eapply Hfn. vm_compute. reflexivity.
Defined.

(** ** The index map of the reachable stores *)

Lemma dense_from_app (i : Z) (a b : list bytes) :
  dense_from i (a ++ b) =
  dense_from i a ++ dense_from (i + Z.of_nat (length a)) b.
Proof.
  revert i. induction a as [|p a IH]; intros i.
  - simpl. rewrite Z.add_0_r. reflexivity.
  - cbn [app dense_from length]. rewrite IH. f_equal. f_equal. f_equal. lia.
Qed.

Lemma dense_from_keys (i : Z) (pkhs : list bytes) (k : bytes) :
  In k (map fst (dense_from i pkhs)) ->
  exists j, i <= j < i + Z.of_nat (length pkhs) /\ k = U32tB j.
Proof.
  revert i. induction pkhs as [|p r IH]; intros i; simpl; [tauto|].
  intros [<-|H].
  - exists i. split; [lia|reflexivity].
  - apply IH in H. destruct H as (j & Hj & ->). exists j. split; [lia|].
    reflexivity.
Qed.

Lemma dense_from_values (i : Z) (pkhs : list bytes) (k : bytes) :
  bkt_sub (dense_from i pkhs) k = None.
Proof.
  unfold bkt_sub. revert i. induction pkhs as [|p r IH]; intros i; simpl.
  - reflexivity.
  - destruct (bytes_eqb k (U32tB i)); [reflexivity|apply IH].
Qed.

Lemma dense_length (i : Z) (pkhs : list bytes) :
  length (dense_from i pkhs) = length pkhs.
Proof. revert i. induction pkhs; intros i; simpl; congruence. Qed.

(** On the dense map of [n < 2^32] channels the next index is [n]: 0 on
    the empty map, the largest key plus 1 otherwise. *)
Lemma nextIndex_dense (pkhs : list bytes) :
  Z.of_nat (length pkhs) < 2 ^ 32 ->
  nextIndex (dense pkhs) = Z.of_nat (length pkhs).
Proof.
  intros Hn. unfold nextIndex, dense.
  destruct pkhs as [|p r] using rev_ind; [reflexivity|].
  rewrite dense_from_app. cbn [dense_from]. rewrite bkt_last_app.
  cbn [slice]. rewrite BtU32_U32tB.
  rewrite length_app in Hn |- *. cbn [length] in Hn |- *.
  unfold u32. rewrite (Z.mod_small (0 + _)) by lia.
  rewrite Z.mod_small by lia. lia.
Qed.

Lemma insert_dense (pkhs : list bytes) (p : bytes) :
  Z.of_nat (length pkhs) < 2 ^ 32 ->
  insert (U32tB (Z.of_nat (length pkhs))) (Val p) (dense pkhs) =
  dense (pkhs ++ [p]).
Proof.
  intros Hn. unfold dense. rewrite dense_from_app. cbn [dense_from].
  apply insert_above. intros k Hk.
  apply dense_from_keys in Hk. destruct Hk as (j & Hj & ->).
  rewrite U32tB_compare by lia. apply Z.compare_gt_iff. lia.
Qed.

(** [OpenDB] changes nothing, or leaves the three buckets in place, each
    with the content it had. *)
Lemma OpenDB_view (f : io) (db : DB) :
  fst (OpenDB f db) = db \/
  (pkhMap (fst (OpenDB f db)) = Some (or_empty (pkhMap db)) /\
   chanData (fst (OpenDB f db)) = Some (or_empty (chanData db)) /\
   txidIndex (fst (OpenDB f db)) = Some (or_empty (txidIndex db))).
Proof.
  unfold OpenDB. destruct (open_err f); [left; reflexivity|].
  unfold Update, OpenDB_fn, tx_CreateBucketIfNotExists, tx_CreateBucket.
  unfold bind, ret, bkt_create, pkhMap, chanData, txidIndex, bkt_sub.
  cbn [resolve modify app length Nat.eqb BUCKETPKHMap BUCKETChandata BUCKETTxid
       fst snd].
  fold BUCKETPKHMap BUCKETChandata BUCKETTxid.
  destruct (lookup BUCKETPKHMap db) as [[v|pkm]|] eqn:Epkm;
    [left; reflexivity| |];
    cbn [fst snd]; rewrite ?lookup_insert_other by reflexivity;
    (destruct (lookup BUCKETChandata db) as [[v|cda]|] eqn:Ecda;
       [left; reflexivity| |]);
    cbn [fst snd]; rewrite ?lookup_insert_other by reflexivity;
    (destruct (lookup BUCKETTxid db) as [[v|txi]|] eqn:Etxi;
       [left; reflexivity| |]);
    cbn [fst snd]; (destruct (commit_err f); [left; reflexivity|]);
    right; cbn [fst snd or_empty];
    rewrite ?lookup_insert_same, ?lookup_insert_other by reflexivity;
    rewrite ?lookup_insert_same, ?lookup_insert_other by reflexivity;
    rewrite ?lookup_insert_same, ?Epkm, ?Ecda, ?Etxi; auto.
Qed.

Section ReachableFacts.

Context {elkrem : Elkrem} {codec : DescCodec}.

(** Every reachable store is the new file or has its three buckets, and
    no key of its hint index is longer than 8 bytes. *)
Lemma reachable_shape (n : nat) (db : DB) :
  reachable n db -> db = [] \/ (initialised db /\ short_keys db).
Proof.
  induction 1 as [|n db f Hr IH|n db f wd db' Hr IH Hadd
                  |n db f wd db' e Hr IH Hadd|n db f cm Hr IH].
  - left. reflexivity.
  - destruct (OpenDB_view f db) as [->|(Hp & Hc & Ht)]; [exact IH|].
    right. split.
    + unfold initialised. rewrite Hp, Hc, Ht. repeat split; discriminate.
    + intros txi q Htxi Hq. rewrite Ht in Htxi. injection Htxi as <-.
      destruct IH as [->|[_ Hshort]]; [reflexivity|].
      destruct (txidIndex db) as [txi|] eqn:E; [|reflexivity].
      exact (Hshort txi q E Hq).
  - apply AddNewChannel_ok_view in Hadd.
    destruct Hadd as (pkm & elkBytes & Hpkm & _ & Hchan & Hpkm' & Htxi).
    destruct IH as [->|[(_ & _ & Ht) Hshort]]; [discriminate Hpkm|].
    right. split.
    + unfold initialised. rewrite Hpkm', Htxi. repeat split; try discriminate.
      * unfold channel in Hchan. destruct (chanData db'); discriminate.
      * exact Ht.
    + intros txi q Hq. rewrite Htxi in Hq. exact (Hshort txi q Hq).
  - apply Update_rollback in Hadd. subst db'. exact IH.
  - destruct (AddMsg f db cm) as [db' [e|]] eqn:E; cbn [fst].
    { apply Update_rollback in E. subst db'. exact IH. }
    pose proof (AddMsg_ok_view _ _ _ _ E)
      as (chan & elkr & elkr' & eb & ci & Hch & _ & _ & _ & _ & Hch' & Hhint &
          _ & Hpkm).
    apply AddMsg_ok_inv in E.
    destruct E as (cda & chan0 & elkr0 & elkr0' & elkBytes & cIdxBytes & txi &
                   Hcda & _ & _ & _ & _ & _ & Htxi & Hdb').
    destruct IH as [->|[(Hp & _ & _) Hshort]]; [discriminate Hcda|].
    right. split.
    + unfold initialised. rewrite Hpkm. repeat split; try exact Hp.
      * unfold channel in Hch'. destruct (chanData db'); discriminate.
      * unfold hintAt in Hhint. destruct (txidIndex db'); discriminate.
    + intros txi' q Hq Hlen. subst db'.
      unfold txidIndex, bkt_sub in Hq. rewrite lookup_insert_same in Hq.
      injection Hq as <-.
      rewrite lookup_insert_other.
      * exact (Hshort txi q Htxi Hlen).
      * apply bytes_eqb_length.
        pose proof (firstn_le_length 8 (ParTxid cm)).
        change (length q <> length (firstn 8 (ParTxid cm))). lia.
Qed.

(** C5: in every store the operations lead to, when the descriptor's
    dest_pkh already has a channel sub-bucket, AddNewChannel fails with
    bolt's ErrBucketExists (the design document's ChannelExists); and
    whenever AddNewChannel returns an error, whatever step it comes from,
    the store is exactly the one before the call. *)
Theorem AddNewChannel_exists_or_nothing_persisted
    (n : nat) (f : io) (db : DB) (wd : WatchannelDescriptor) :
  reachable n db -> length (DestPKHScript wd) = 20%nat ->
  (forall chan, channel db (DestPKHScript wd) = Some chan ->
     AddNewChannel f db wd = (db, Some ErrBucketExists)) /\
  (forall db' e, AddNewChannel f db wd = (db', Some e) -> db' = db).
Proof.
  intros Hr Hlen. split.
  - intros chan Hchan.
    destruct (reachable_shape n db Hr) as [->|[[Hpkm _] _]];
      [discriminate Hchan|].
    apply (AddNewChannel_exists f db wd chan); try assumption.
    rewrite Hlen. apply Nat.lt_0_succ.
  - intros db' e H. exact (Update_rollback _ _ _ _ _ H).
Qed.

(** In a reachable store [IngestTx] never hits: it reads under 16 bytes
    of the identifier, and no key is that long. *)
Lemma IngestTx_never_hits (n : nat) (db : DB) (txid : bytes) :
  reachable n db -> (16 <= length txid)%nat ->
  IngestTx db txid = (None, None) \/
  IngestTx db txid = (None, Some ErrNoTxidBucket).
Proof.
  intros Hr Hlen.
  destruct (reachable_shape n db Hr) as [->|[[_ [_ Htxi]] Hshort]].
  - right. reflexivity.
  - left. apply IngestTx_miss; [exact Htxi|].
    unfold hintAt, bkt_get. destruct (txidIndex db) as [txi|] eqn:E;
      [|reflexivity].
    rewrite (Hshort txi (firstn 16 txid) E); [reflexivity|].
    rewrite firstn_length_exact by exact Hlen. lia.
Qed.

(** C1: in every store the operations lead to, after AddMsg has
    committed the hint of a message, IngestTx on the message's own
    transaction identifier finds nothing, where the design document
    promises the hint back: AddMsg files the record under the first 8
    bytes of the identifier and IngestTx reads under the first 16. *)
Theorem IngestTx_misses_added_hint
    (n : nat) (f : io) (db db' : DB) (cm : ComMsg) :
  reachable n db -> AddMsg f db cm = (db', None) ->
  (16 <= length (ParTxid cm))%nat ->
  IngestTx db' (ParTxid cm) = (None, None).
Proof.
  intros Hr H Hlen.
  assert (Hr' : reachable n db').
  { replace db' with (fst (AddMsg f db cm)) by (rewrite H; reflexivity).
    apply reach_msg, Hr. }
  destruct (reachable_shape n db' Hr') as [->|[[_ [_ Htxi]] Hshort]].
  - apply AddMsg_ok_view in H.
    destruct H as (chan & elkr & elkr' & elkBytes & cIdxBytes & _ & _ & _ & _ &
                   _ & _ & Hhint & _).
    discriminate Hhint.
  - apply IngestTx_miss; [exact Htxi|].
    unfold hintAt, bkt_get. destruct (txidIndex db') as [txi|] eqn:E;
      [|reflexivity].
    rewrite (Hshort txi (firstn 16 (ParTxid cm)) E); [reflexivity|].
    rewrite firstn_length_exact by exact Hlen. lia.
Qed.

End ReachableFacts.

Lemma reachable_db_one : @reachable counter_elkrem spec_codec 1 db_one.
Proof.
  apply (reach_channel 0 db_opened io_ok (wd_of 1)); [|vm_compute; reflexivity].
  apply (reach_open 0 [] io_ok). apply reach_new.
Qed.

Lemma AddNewChannel_exists_or_nothing_persisted_witness :
  @AddNewChannel counter_elkrem spec_codec io_ok db_one (wd_of 1) =
    (db_one, Some ErrBucketExists) /\
  snd (@AddNewChannel counter_elkrem spec_codec (mkIo None (Some 5)) db_one
         (wd_of 2)) = Some (ErrStorage 5) /\
  fst (@AddNewChannel counter_elkrem spec_codec (mkIo None (Some 5)) db_one
         (wd_of 2)) = db_one.
Proof.
  destruct (@AddNewChannel_exists_or_nothing_persisted
              counter_elkrem spec_codec 1 io_ok db_one (wd_of 1)
              reachable_db_one eq_refl)
    as [Hex _].
  destruct (@AddNewChannel_exists_or_nothing_persisted
              counter_elkrem spec_codec 1 (mkIo None (Some 5)) db_one (wd_of 2)
              reachable_db_one eq_refl)
    as [_ Hrb].
  split; [|split].
  - eapply Hex. vm_compute. reflexivity.
  - vm_compute. reflexivity.
  - eapply Hrb. vm_compute. reflexivity.
Defined.

Lemma IngestTx_misses_added_hint_witness :
  snd (@AddMsg counter_elkrem io_ok db_one (cm_of 1 txid_a)) = None /\
  IngestTx db_hint txid_a = (None, None).
Proof.
  split; [vm_compute; reflexivity|].
  apply (@IngestTx_misses_added_hint counter_elkrem spec_codec 1 io_ok db_one
           db_hint (cm_of 1 txid_a) reachable_db_one).
  - vm_compute. reflexivity.
  - apply Nat.leb_le. vm_compute. reflexivity.
Defined.

Section DenseIndices.

Context {elkrem : Elkrem} {codec : DescCodec}.

Lemma reachable_indexed (n : nat) (db : DB) :
  reachable n db -> Z.of_nat n <= 2 ^ 32 -> indexed n db.
Proof.
  induction 1 as [|n db f Hr IH|n db f wd db' Hr IH Hadd
                  |n db f wd db' e Hr IH Hadd|n db f cm Hr IH]; intros Hn.
  - exists []. split; [reflexivity|]. split; [constructor|]. left. auto.
  - destruct (IH Hn) as (pkhs & Hlen & Hnd & Hinv).
    exists pkhs. split; [exact Hlen|]. split; [exact Hnd|].
    destruct (OpenDB_view f db) as [->|(Hp & Hc & _)]; [exact Hinv|].
    right. destruct Hinv as [[-> ->]|(Hpkm & cda & Hcda & Hin)].
    + destruct pkhs; [|discriminate]. rewrite Hp, Hc.
      split; [reflexivity|]. exists []. split; [reflexivity|].
      intros p [].
    + rewrite Hp, Hc, Hpkm, Hcda. split; [reflexivity|].
      exists cda. split; [reflexivity|exact Hin].
  - destruct IH as (pkhs & Hlen & Hnd & Hinv); [lia|].
    apply AddNewChannel_ok_inv in Hadd.
    destruct Hadd as (pkm & cda & elkBytes & Hpkm & Hcda & Hfresh & _ & _ & ->).
    destruct Hinv as [[-> _]|(Hpkm' & cda' & Hcda' & Hin)];
      [discriminate Hpkm|].
    rewrite Hpkm in Hpkm'. injection Hpkm' as ->.
    rewrite Hcda in Hcda'. injection Hcda' as <-.
    assert (Hlt : Z.of_nat (length pkhs) < 2 ^ 32) by lia.
    exists (pkhs ++ [DestPKHScript wd]).
    split; [rewrite length_app; cbn [length]; lia|].
    split.
    { apply NoDup_app; [exact Hnd|constructor; [intros []|constructor]|].
      intros p Hp [<-|[]]. exact (Hin _ Hp Hfresh). }
    right. split.
    + unfold pkhMap, bkt_sub. rewrite lookup_insert_same.
      rewrite nextIndex_dense, insert_dense by exact Hlt. reflexivity.
    + eexists. split.
      * unfold chanData, bkt_sub. rewrite lookup_insert_other by reflexivity.
        rewrite lookup_insert_same. reflexivity.
      * intros p Hp. destruct (bytes_eqb p (DestPKHScript wd)) eqn:E.
        -- apply bytes_eqb_eq in E. subst p. rewrite lookup_insert_same.
           discriminate.
        -- rewrite lookup_insert_other by exact E.
           apply in_app_or in Hp. destruct Hp as [Hp|[<-|[]]].
           ++ exact (Hin _ Hp).
           ++ rewrite bytes_eqb_refl in E. discriminate.
  - apply Update_rollback in Hadd. subst db'. exact (IH Hn).
  - destruct (IH Hn) as (pkhs & Hlen & Hnd & Hinv).
    destruct (AddMsg f db cm) as [db' [e|]] eqn:E; cbn [fst].
    { apply Update_rollback in E. subst db'. exists pkhs. auto. }
    apply AddMsg_ok_inv in E.
    destruct E as (cda & chan & elkr & elkr' & elkBytes & cIdxBytes & txi &
                   Hcda & Hchan & _ & _ & _ & _ & _ & ->).
    exists pkhs. split; [exact Hlen|]. split; [exact Hnd|].
    destruct Hinv as [[-> _]|(Hpkm & cda' & Hcda' & Hin)];
      [discriminate Hcda|].
    rewrite Hcda in Hcda'. injection Hcda' as <-.
    right. split.
    + unfold pkhMap, bkt_sub in *. rewrite !lookup_insert_other by reflexivity.
      exact Hpkm.
    + eexists. split.
      * unfold chanData, bkt_sub. rewrite lookup_insert_other by reflexivity.
        rewrite lookup_insert_same. reflexivity.
      * intros p Hp. destruct (bytes_eqb p (DestPKH cm)) eqn:Ep.
        -- apply bytes_eqb_eq in Ep. subst p. rewrite lookup_insert_same.
           discriminate.
        -- rewrite lookup_insert_other by exact Ep. exact (Hin _ Hp).
Qed.

End DenseIndices.

Lemma dense_from_fst (i : Z) (pkhs : list bytes) :
  map fst (dense_from i pkhs) =
  map (fun j => U32tB (i + Z.of_nat j)) (seq 0 (length pkhs)).
Proof.
  revert i. induction pkhs as [|p r IH]; intros i; [reflexivity|].
  cbn [dense_from map length seq fst]. rewrite Z.add_0_r. f_equal.
  rewrite IH, <- seq_shift, map_map. apply map_ext. intros j. f_equal. lia.
Qed.

Section DenseProperty.

Context {elkrem : Elkrem} {codec : DescCodec}.

(** C4 (amended): after n <= 2^32 successful AddNewChannel calls, in any
    order with the other operations and across reopening the store, the
    index map consists of exactly the big-endian keys 0, 1, ..., n-1, each
    leading to the dest_pkh of another channel; and the next channel is
    given the index n, which is 0 on the empty map and the largest key
    plus 1 otherwise. *)
Theorem dense_indices_up_to_2_32 (n : nat) (db : DB) :
  reachable n db -> Z.of_nat n <= 2 ^ 32 ->
  exists pkhs,
    length pkhs = n /\ NoDup pkhs /\
    ((db = [] /\ n = 0%nat) \/ pkhMap db = Some (dense pkhs)) /\
    map fst (dense pkhs) = map (fun j => U32tB (Z.of_nat j)) (seq 0 n) /\
    (Z.of_nat n < 2 ^ 32 -> nextIndex (dense pkhs) = Z.of_nat n).
Proof.
  intros Hr Hn. destruct (reachable_indexed n db Hr Hn)
    as (pkhs & Hlen & Hnd & Hinv).
  exists pkhs. split; [exact Hlen|]. split; [exact Hnd|]. split; [|split].
  - destruct Hinv as [H|[H _]]; [left; exact H|right; exact H].
  - unfold dense. rewrite dense_from_fst, Hlen. reflexivity.
  - intros Hlt. rewrite nextIndex_dense by lia. rewrite Hlen. reflexivity.
Qed.

End DenseProperty.

Lemma dense_indices_up_to_2_32_witness :
  exists pkhs,
    length pkhs = 2%nat /\ NoDup pkhs /\
    ((db_two = [] /\ 2%nat = 0%nat) \/ pkhMap db_two = Some (dense pkhs)) /\
    map fst (dense pkhs) = map (fun j => U32tB (Z.of_nat j)) (seq 0 2) /\
    (Z.of_nat 2 < 2 ^ 32 -> nextIndex (dense pkhs) = Z.of_nat 2).
Proof.
  apply (@dense_indices_up_to_2_32 counter_elkrem spec_codec 2 db_two).
  - apply (reach_channel 1 db_one io_ok (wd_of 2));
      [|vm_compute; reflexivity].
    apply (reach_channel 0 db_opened io_ok (wd_of 1));
      [|vm_compute; reflexivity].
    apply (reach_open 0 [] io_ok). apply reach_new.
  - vm_compute. intros H. discriminate H.
Defined.

(** ** Beyond 2^32 channels *)

Lemma pkh_of_inj (a b : Z) :
  0 <= a < 2 ^ 160 -> 0 <= b < 2 ^ 160 -> pkh_of a = pkh_of b -> a = b.
Proof.
  intros Ha Hb H. apply (f_equal be_decode) in H. unfold pkh_of in H.
  rewrite !be_decode_encode in H.
  change (256 ^ Z.of_nat 20) with (2 ^ 160) in H.
  rewrite !Z.mod_small in H by assumption. exact H.
Qed.

Lemma pkhs_upto_length (n : nat) : length (pkhs_upto n) = n.
Proof. unfold pkhs_upto. rewrite length_map, length_seq. reflexivity. Qed.

Lemma pkhs_upto_S (n : nat) :
  pkhs_upto (S n) = pkhs_upto n ++ [pkh_of (Z.of_nat n)].
Proof. unfold pkhs_upto. rewrite seq_S, map_app. reflexivity. Qed.

Lemma wd_of_ToBytes_length (i : Z) :
  length (@ToBytes spec_codec (wd_of i)) = 128%nat.
Proof.
  cbn [ToBytes spec_codec wd_of DestPKHScript AdversaryBasePoint
       CustomerBasePoint Delay Fee ElkZero pkh_of].
  rewrite !length_app. cbn [length]. rewrite !be_encode_length. reflexivity.
Qed.

(** Adding the next channel to [channels n] goes through as long as its
    dest_pkh is new. *)
Lemma channels_step (n : nat) (pkm cda : bucket) :
  pkhMap (channels n) = Some pkm -> (forall k, bkt_sub pkm k = None) ->
  chanData (channels n) = Some cda ->
  lookup (pkh_of (Z.of_nat n)) cda = None ->
  exists chan,
    @AddNewChannel counter_elkrem spec_codec io_ok (channels n)
      (wd_of (Z.of_nat n)) =
    (insert BUCKETPKHMap
       (Bkt (insert (U32tB (nextIndex pkm)) (Val (pkh_of (Z.of_nat n))) pkm))
       (insert BUCKETChandata
          (Bkt (insert (pkh_of (Z.of_nat n)) (Bkt chan) cda))
          (channels n)), None).
Proof.
  intros Hpkm Hval Hcda Hfresh. eexists.
  apply (@AddNewChannel_ok_intro counter_elkrem spec_codec io_ok (channels n)
           (wd_of (Z.of_nat n)) pkm cda
           (U64tB 1 ++ be_encode 32 (Z.of_nat n))).
  - reflexivity.
  - exact Hpkm.
  - exact Hcda.
  - cbn [wd_of DestPKHScript]. unfold pkh_of. rewrite be_encode_length. lia.
  - cbn [wd_of DestPKHScript]. unfold pkh_of. rewrite be_encode_length.
    unfold MaxValueSize. lia.
  - exact Hfresh.
  - rewrite wd_of_ToBytes_length. lia.
  - reflexivity.
  - rewrite length_app, U64tB_length, be_encode_length.
    unfold MaxValueSize. lia.
  - apply Hval.
Qed.

(** Up to 2^32 channels, [channels n] is reachable and its index map is
    dense. *)
Lemma channels_dense (n : nat) :
  Z.of_nat n <= 2 ^ 32 ->
  @reachable counter_elkrem spec_codec n (channels n) /\
  pkhMap (channels n) = Some (dense (pkhs_upto n)) /\
  exists cda,
    chanData (channels n) = Some cda /\
    forall p, lookup p cda <> None ->
              exists j, (j < n)%nat /\ p = pkh_of (Z.of_nat j).
Proof.
  induction n as [|n IH]; intros Hn.
  - split; [|split].
    + apply (reach_open 0 [] io_ok), reach_new.
    + reflexivity.
    + exists []. split; [reflexivity|]. intros p H. contradiction H.
      reflexivity.
  - destruct IH as (Hr & Hpkm & cda & Hcda & Hkeys); [lia|].
    assert (Hfresh : lookup (pkh_of (Z.of_nat n)) cda = None).
    { destruct (lookup (pkh_of (Z.of_nat n)) cda) eqn:E; [|reflexivity].
      destruct (Hkeys (pkh_of (Z.of_nat n))) as (j & Hj & Heq);
        [rewrite E; discriminate|].
      apply pkh_of_inj in Heq; lia. }
    destruct (channels_step n _ cda Hpkm (dense_from_values 0 _) Hcda Hfresh)
      as (chan & Hstep).
    assert (Hch : channels (S n) =
                  fst (@AddNewChannel counter_elkrem spec_codec io_ok
                         (channels n) (wd_of (Z.of_nat n)))) by reflexivity.
    rewrite Hstep in Hch. cbn [fst] in Hch.
    split; [|split].
    + apply (reach_channel n (channels n) io_ok (wd_of (Z.of_nat n)));
        [exact Hr|].
      rewrite Hch. exact Hstep.
    + rewrite Hch. unfold pkhMap, bkt_sub. rewrite lookup_insert_same.
      rewrite nextIndex_dense by (rewrite pkhs_upto_length; lia).
      rewrite pkhs_upto_length at 1.
      rewrite <- (pkhs_upto_length n) at 1.
      rewrite insert_dense by (rewrite pkhs_upto_length; lia).
      rewrite pkhs_upto_S. reflexivity.
    + eexists. split.
      * rewrite Hch. unfold chanData, bkt_sub.
        rewrite lookup_insert_other by reflexivity.
        rewrite lookup_insert_same. reflexivity.
      * intros p Hp.
        destruct (bytes_eqb p (pkh_of (Z.of_nat n))) eqn:E.
        -- apply bytes_eqb_eq in E. exists n. split; [lia|exact E].
        -- rewrite lookup_insert_other in Hp by exact E.
           destruct (Hkeys p Hp) as (j & Hj & ->). exists j. split; [lia|].
           reflexivity.
Qed.

(** On a full index map the next index wraps around to 0. *)
Lemma nextIndex_dense_full (pkhs : list bytes) :
  Z.of_nat (length pkhs) = 2 ^ 32 -> nextIndex (dense pkhs) = 0.
Proof.
  intros Hn. unfold nextIndex, dense.
  destruct pkhs as [|p r] using rev_ind; [discriminate Hn|].
  rewrite dense_from_app. cbn [dense_from]. rewrite bkt_last_app.
  cbn [slice]. rewrite BtU32_U32tB.
  rewrite length_app in Hn. cbn [length] in Hn.
  unfold u32. rewrite (Z.mod_small (0 + _)) by lia.
  replace (0 + Z.of_nat (length r) + 1) with (2 ^ 32) by lia.
  reflexivity.
Qed.

Lemma insert_dense_first (pkhs : list bytes) (p : bytes) :
  (0 < length pkhs)%nat ->
  length (insert (U32tB 0) (Val p) (dense pkhs)) = length pkhs.
Proof.
  destruct pkhs as [|q r]; [cbn; lia|]. intros _.
  unfold dense. cbn [dense_from insert]. rewrite bytes_compare_refl.
  cbn [length]. rewrite dense_length. reflexivity.
Qed.

(** One channel more than there are indices: the call succeeds, takes
    index 0 again and leaves the index map with as many keys as before. *)
Lemma channels_wrap (n : nat) :
  Z.of_nat n = 2 ^ 32 ->
  @reachable counter_elkrem spec_codec (S n) (channels (S n)) /\
  (exists pkm, pkhMap (channels n) = Some pkm /\ nextIndex pkm = 0) /\
  (forall pkhs, length pkhs = S n ->
                pkhMap (channels (S n)) <> Some (dense pkhs)).
Proof.
  intros Hn.
  destruct (channels_dense n) as (Hr & Hpkm & cda & Hcda & Hkeys); [lia|].
  assert (Hfresh : lookup (pkh_of (Z.of_nat n)) cda = None).
  { destruct (lookup (pkh_of (Z.of_nat n)) cda) eqn:E; [|reflexivity].
    destruct (Hkeys (pkh_of (Z.of_nat n))) as (j & Hj & Heq);
      [rewrite E; discriminate|].
    apply pkh_of_inj in Heq; lia. }
  destruct (channels_step n _ cda Hpkm (dense_from_values 0 _) Hcda Hfresh)
    as (chan & Hstep).
  assert (Hch : channels (S n) =
                fst (@AddNewChannel counter_elkrem spec_codec io_ok
                       (channels n) (wd_of (Z.of_nat n)))) by reflexivity.
  rewrite Hstep in Hch. cbn [fst] in Hch.
  assert (Hnext : nextIndex (dense (pkhs_upto n)) = 0)
    by (apply nextIndex_dense_full; rewrite pkhs_upto_length; exact Hn).
  split; [|split].
  - apply (reach_channel n (channels n) io_ok (wd_of (Z.of_nat n)));
      [exact Hr|].
    rewrite Hch. exact Hstep.
  - eexists. split; [exact Hpkm|exact Hnext].
  - intros pkhs Hlen H. rewrite Hch in H. unfold pkhMap, bkt_sub in H.
    rewrite lookup_insert_same, Hnext in H. injection H as H.
    apply (f_equal (@length _)) in H.
    rewrite insert_dense_first in H by (rewrite pkhs_upto_length; lia).
    unfold dense in H. rewrite dense_length, pkhs_upto_length, Hlen in H.
    lia.
Qed.

Lemma full_spec : Z.of_nat full = 2 ^ 32.
Proof. unfold full. apply Z2Nat.id. discriminate. Qed.

(** C4, as stated for every n, fails at n = 2^32 + 1: the calls that add
    the channels of [wd_of 0], ..., [wd_of 2^32] all succeed, the last is
    given the index 0 instead of the largest key plus 1, and the index map
    is not the dense map of 2^32 + 1 channels. *)
Lemma dense_indices_fail_beyond_2_32 :
  @reachable counter_elkrem spec_codec (S full) (channels (S full)) /\
  (exists pkm, pkhMap (channels full) = Some pkm /\ nextIndex pkm = 0) /\
  (forall pkhs, length pkhs = S full ->
                pkhMap (channels (S full)) <> Some (dense pkhs)).
Proof. exact (channels_wrap full full_spec). Qed.

(** ** Properties of [BuildJusticeTx] *)

Lemma find_first_Some (sh : bytes) (outs : list TxOut) (n : nat) :
  find_first sh outs = Some n -> first_match sh outs n.
Proof.
  revert n. induction outs as [|out rest IH]; intros n; cbn [find_first].
  - discriminate.
  - destruct (bytes_eqb sh (PkScript out)) eqn:E.
    + intros [= <-]. apply bytes_eqb_eq in E.
      split; [cbn; lia|]. split; [cbn; congruence|]. intros i Hi. lia.
    + destruct (find_first sh rest) as [m|]; [|discriminate].
      intros [= <-]. destruct (IH m eq_refl) as (Hlt & Heq & Hbefore).
      split; [cbn; lia|]. split; [exact Heq|].
      intros [|i] Hi.
      * cbn. intros H. symmetry in H. apply bytes_eqb_eq in H. congruence.
      * cbn. apply Hbefore. lia.
Qed.


Lemma first_match_find (sh : bytes) (outs : list TxOut) (n : nat) :
  first_match sh outs n -> find_first sh outs = Some n.
Proof.
  revert n. induction outs as [|out rest IH]; intros n (Hlt & Heq & Hbefore).
  - cbn in Hlt. lia.
  - cbn [find_first]. destruct n as [|n].
    + cbn in Heq. rewrite <- Heq, bytes_eqb_refl. reflexivity.
    + assert (E : bytes_eqb sh (PkScript out) = false).
      { apply bytes_eqb_neq. intros H. apply (Hbefore 0%nat); [lia|].
        cbn. congruence. }
      rewrite E, (IH n); [reflexivity|].
      split; [cbn in Hlt; lia|]. split; [exact Heq|].
      intros i Hi. apply (Hbefore (S i)). lia.
Qed.


(** The loop of [BuildJusticeTx] leaves in [txoutNum] the index of the
    first match, or the value it started with. *)
Lemma range_TxOut_find (sh : bytes) (outs : list TxOut) (i : nat) (d : Z) :
  range_TxOut sh outs i d =
  match find_first sh outs with
  | Some n => Z.of_nat (i + n)
  | None => d
  end.
Proof.
  revert i. induction outs as [|out rest IH]; intros i; cbn; [reflexivity|].
  destruct (bytes_eqb sh (PkScript out)).
  - rewrite Nat.add_0_r. reflexivity.
  - rewrite IH. destruct (find_first sh rest); cbn; [|reflexivity].
    f_equal. lia.
Qed.

Section JusticeFacts.

Context {elkrem : Elkrem} {codec : DescCodec} {chain : Chain}.

Lemma BuildJusticeTx_reconstructs (db : DB) (badTx : MsgTx) (isig : IdxSig)
    (wd : WatchannelDescriptor) (sh : bytes) :
  reconstructs db isig wd sh ->
  BuildJusticeTx db badTx isig = assemble badTx isig wd sh.
Proof.
  intros (elkRcv & s & A & C & Hview & Hat & HA & HC & ->).
  unfold BuildJusticeTx. rewrite Hview, Hat, HA, HC. reflexivity.
Qed.

Lemma assemble_find (badTx : MsgTx) (isig : IdxSig)
    (wd : WatchannelDescriptor) (sh : bytes) :
  assemble badTx isig wd sh =
  match find_first sh (TxOuts badTx) with
  | Some n => if Nat.eqb n 999 then Err ErrNoMatch
              else Ok (justiceTx_of badTx isig wd n)
  | None => Err ErrNoMatch
  end.
Proof.
  unfold assemble. rewrite range_TxOut_find.
  destruct (find_first sh (TxOuts badTx)) as [n|]; [|reflexivity].
  cbn [Nat.add].
  destruct (Nat.eqb_spec n 999) as [->|Hne].
  - reflexivity.
  - replace (Z.of_nat n =? 999) with false by (symmetry; apply Z.eqb_neq; lia).
    rewrite Nat2Z.id. reflexivity.
Qed.

(** A match anywhere but at index 999 yields the sweep of the first
    matching output. *)
Lemma BuildJusticeTx_first_match (db : DB) (badTx : MsgTx) (isig : IdxSig)
    (wd : WatchannelDescriptor) (sh : bytes) (n : nat) :
  reconstructs db isig wd sh -> first_match sh (TxOuts badTx) n ->
  n <> 999%nat ->
  BuildJusticeTx db badTx isig = Ok (justiceTx_of badTx isig wd n).
Proof.
  intros Hrec Hm Hne.
  rewrite (BuildJusticeTx_reconstructs _ _ _ _ _ Hrec), assemble_find.
  rewrite (first_match_find _ _ _ Hm).
  destruct (Nat.eqb_spec n 999); [contradiction|reflexivity].
Qed.

(** C7: when the first output whose script equals the reconstructed P2WSH
    script sits at index 999, BuildJusticeTx returns the "couldn't match"
    error instead of the justice transaction: 999 is the value txoutNum
    starts with, and the code takes it for "no match". *)
Theorem BuildJusticeTx_match_at_999_is_lost (db : DB) (badTx : MsgTx)
    (isig : IdxSig) (wd : WatchannelDescriptor) (sh : bytes) :
  reconstructs db isig wd sh -> first_match sh (TxOuts badTx) 999 ->
  BuildJusticeTx db badTx isig = Err ErrNoMatch.
Proof.
  intros Hrec Hm.
  rewrite (BuildJusticeTx_reconstructs _ _ _ _ _ Hrec), assemble_find.
  rewrite (first_match_find _ _ _ Hm). reflexivity.
Qed.


(** Without a reconstructed script there is no transaction either. *)
Lemma BuildJusticeTx_ok_reconstructs (db : DB) (badTx : MsgTx)
    (isig : IdxSig) (tx : MsgTx) :
  BuildJusticeTx db badTx isig = Ok tx ->
  exists wd sh, reconstructs db isig wd sh.
Proof.
  unfold BuildJusticeTx.
  destruct (View db (BuildJusticeTx_fn isig)) as [[wd elkRcv]|] eqn:Hview;
    [|discriminate].
  destruct (AtIndex elkRcv (StateIdx isig)) as [s|] eqn:Hat; [|discriminate].
  destruct (ParsePubKey (AdversaryBasePoint wd)) as [A|] eqn:HA;
    [|discriminate].
  destruct (ParsePubKey (CustomerBasePoint wd)) as [C|] eqn:HC;
    [|discriminate].
  intros _. exists wd. eexists. exists elkRcv, s, A, C. auto.
Qed.

End JusticeFacts.

Lemma reconstructs_one :
  @reconstructs counter_elkrem spec_codec toy_chain db_hint isig_one
    wd_one sh_one.
Proof.
  exists (mkCounter 2 (be_encode 32 5)), (be_encode 32 5),
         (x02 :: be_encode 32 7), (x03 :: be_encode 32 9).
  repeat split; vm_compute; reflexivity.
Defined.

Lemma BuildJusticeTx_match_at_999_is_lost_witness :
  length (TxOuts (badTx_at 999)) = 1000%nat /\
  PkScript (nth 999 (TxOuts (badTx_at 999)) dummyTxOut) = sh_one /\
  @BuildJusticeTx counter_elkrem spec_codec toy_chain db_hint (badTx_at 999)
    isig_one = Err ErrNoMatch.
Proof.
  split; [vm_compute; reflexivity|]. split; [vm_compute; reflexivity|].
  apply (@BuildJusticeTx_match_at_999_is_lost counter_elkrem spec_codec
           toy_chain db_hint (badTx_at 999) isig_one wd_one sh_one).
  - exact reconstructs_one.
  - apply find_first_Some. vm_compute. reflexivity.
Defined.

(** The same output one place earlier is swept. *)
Lemma BuildJusticeTx_match_at_998 :
  @BuildJusticeTx counter_elkrem spec_codec toy_chain db_hint (badTx_at 998)
    isig_one =
  Ok (@justiceTx_of toy_chain (badTx_at 998) isig_one wd_one 998).
Proof. vm_compute. reflexivity. Qed.


(** ** Further properties of [OpenDB] *)

(** X1: a successful OpenDB leaves the three buckets in place, each with
    the content it had before (empty if it was missing), and touches no
    other key of the file. *)
Theorem OpenDB_creates_buckets (f : io) (db db' : DB) :
  OpenDB f db = (db', None) ->
  pkhMap db' = Some (or_empty (pkhMap db)) /\
  chanData db' = Some (or_empty (chanData db)) /\
  txidIndex db' = Some (or_empty (txidIndex db)) /\
  (forall k, bytes_eqb k BUCKETPKHMap = false ->
             bytes_eqb k BUCKETChandata = false ->
             bytes_eqb k BUCKETTxid = false ->
             lookup k db' = lookup k db).
Proof.
  unfold OpenDB. destruct (open_err f); [discriminate|].
  unfold Update, OpenDB_fn, tx_CreateBucketIfNotExists, tx_CreateBucket.
  unfold bind, ret, bkt_create, pkhMap, chanData, txidIndex, bkt_sub.
  cbn [resolve modify app length Nat.eqb BUCKETPKHMap BUCKETChandata BUCKETTxid
       fst snd].
  fold BUCKETPKHMap BUCKETChandata BUCKETTxid.
  destruct (lookup BUCKETPKHMap db) as [[v|pkm]|] eqn:Epkm;
    [discriminate| |];
    cbn [fst snd]; rewrite ?lookup_insert_other by reflexivity;
    (destruct (lookup BUCKETChandata db) as [[v|cda]|] eqn:Ecda;
       [discriminate| |]);
    cbn [fst snd]; rewrite ?lookup_insert_other by reflexivity;
    (destruct (lookup BUCKETTxid db) as [[v|txi]|] eqn:Etxi;
       [discriminate| |]);
    cbn [fst snd]; (destruct (commit_err f); [discriminate|]);
    intros [= <-]; cbn [or_empty];
    rewrite ?lookup_insert_same, ?lookup_insert_other by reflexivity;
    rewrite ?lookup_insert_same, ?lookup_insert_other by reflexivity;
    rewrite ?lookup_insert_same, ?Epkm, ?Ecda, ?Etxi;
    (repeat split; try reflexivity);
    intros k H1 H2 H3; rewrite ?lookup_insert_other by assumption;
    reflexivity.
Qed.

Lemma OpenDB_creates_buckets_witness :
  pkhMap db_opened = Some [] /\ chanData db_opened = Some [] /\
  txidIndex db_opened = Some [] /\
  chanData (fst (OpenDB io_ok db_nocda)) = Some [] /\
  pkhMap (fst (OpenDB io_ok db_nocda)) = pkhMap db_one.
Proof.
  destruct (OpenDB_creates_buckets io_ok [] db_opened) as (H1 & H2 & H3 & _);
    [vm_compute; reflexivity|].
  destruct (OpenDB_creates_buckets io_ok db_nocda (fst (OpenDB io_ok db_nocda)))
    as (H4 & H5 & _); [vm_compute; reflexivity|].
  split; [exact H1|]. split; [exact H2|]. split; [exact H3|].
  split; [exact H5|]. rewrite H4. vm_compute. reflexivity.
Defined.

(** X2: OpenDB on a store that already has its three buckets changes
    nothing, and fails only when opening the file or committing fails; and
    whenever OpenDB returns an error the file is left as it was, as when a
    bucket name is taken by a plain value. *)
Theorem OpenDB_reopen_keeps_store (f : io) (db : DB) :
  (initialised db ->
   OpenDB f db =
     (db, option_map ErrStorage
            (match open_err f with
             | Some c => Some c
             | None => commit_err f
             end))) /\
  (forall db' e, OpenDB f db = (db', Some e) -> db' = db) /\
  (open_err f = None ->
   (exists v, lookup BUCKETPKHMap db = Some (Val v)) ->
   OpenDB f db = (db, Some ErrIncompatibleValue)).
Proof.
  split; [|split].
  - intros (Hp & Hc & Ht). unfold OpenDB.
    destruct (open_err f); [reflexivity|].
    unfold Update, OpenDB_fn, tx_CreateBucketIfNotExists, tx_CreateBucket.
    unfold bind, ret, bkt_create.
    unfold pkhMap, chanData, txidIndex, bkt_sub in Hp, Hc, Ht.
    cbn [resolve modify app length Nat.eqb BUCKETPKHMap BUCKETChandata
         BUCKETTxid fst snd].
    fold BUCKETPKHMap BUCKETChandata BUCKETTxid.
    destruct (lookup BUCKETPKHMap db) as [[v|pkm]|]; try congruence.
    destruct (lookup BUCKETChandata db) as [[v|cda]|]; try congruence.
    destruct (lookup BUCKETTxid db) as [[v|txi]|]; try congruence.
    destruct (commit_err f); reflexivity.
  - intros db' e. unfold OpenDB. destruct (open_err f).
    + intros [= <- _]. reflexivity.
    + apply Update_rollback.
  - intros Ho (v & Hv). unfold OpenDB. rewrite Ho.
    unfold Update, OpenDB_fn, tx_CreateBucketIfNotExists, tx_CreateBucket.
    unfold bind, ret, bkt_create.
    cbn [resolve modify app length Nat.eqb BUCKETPKHMap fst snd].
    fold BUCKETPKHMap. rewrite Hv. reflexivity.
Qed.

Lemma OpenDB_reopen_keeps_store_witness :
  OpenDB io_ok db_hint = (db_hint, None) /\
  OpenDB (mkIo None (Some 5)) db_hint = (db_hint, Some (ErrStorage 5)) /\
  OpenDB io_ok db_clash = (db_clash, Some ErrIncompatibleValue).
Proof.
  destruct (OpenDB_reopen_keeps_store io_ok db_hint) as (H1 & _).
  destruct (OpenDB_reopen_keeps_store (mkIo None (Some 5)) db_hint)
    as (H2 & _).
  destruct (OpenDB_reopen_keeps_store io_ok db_clash) as (_ & _ & H3).
  split; [|split].
  - apply H1. repeat split; vm_compute; discriminate.
  - apply H2. repeat split; vm_compute; discriminate.
  - apply H3; [reflexivity|]. eexists. vm_compute. reflexivity.
Defined.

(** ** Further properties of [AddNewChannel] *)

Section ChannelExtras.

Context {elkrem : Elkrem} {codec : DescCodec}.

(** X3: without the index-map bucket AddNewChannel fails with "no PKHmap
    bucket", with it but without the channel-data bucket it fails with "no
    Chandata bucket"; the store is left as it was. *)
Theorem AddNewChannel_needs_buckets (f : io) (db : DB)
    (wd : WatchannelDescriptor) :
  (pkhMap db = None ->
   AddNewChannel f db wd = (db, Some ErrNoPKHmapBucket)) /\
  (pkhMap db <> None -> chanData db = None ->
   AddNewChannel f db wd = (db, Some ErrNoChandataBucket)).
Proof.
  unfold AddNewChannel, Update, AddNewChannel_fn, pkhMap, chanData, bkt_sub.
  split.
  - intros Hp. tx_unfold. cbn [app resolve].
    destruct (lookup BUCKETPKHMap db) as [[v|pkm]|]; try discriminate;
      reflexivity.
  - intros Hp Hc. tx_unfold. cbn [app resolve].
    destruct (lookup BUCKETPKHMap db) as [[v|pkm]|] eqn:Epkm; try congruence.
    tx_simp.
    destruct (lookup BUCKETChandata db) as [[v|cda]|]; try discriminate;
      reflexivity.
Qed.

(** X4: a successful AddNewChannel finds no bucket under the descriptor's
    dest_pkh beforehand and changes nothing but that channel and its one
    entry of the index map: every other channel bucket, every other entry
    of the index map, the hint index and every other key of the file are
    as before. *)
Theorem AddNewChannel_touches_only_its_channel (f : io) (db db' : DB)
    (wd : WatchannelDescriptor) :
  AddNewChannel f db wd = (db', None) ->
  channel db (DestPKHScript wd) = None /\
  (forall p, bytes_eqb p (DestPKHScript wd) = false ->
     channel db' p = channel db p) /\
  (exists pkm pkm',
     pkhMap db = Some pkm /\ pkhMap db' = Some pkm' /\
     forall k, bytes_eqb k (U32tB (nextIndex pkm)) = false ->
               lookup k pkm' = lookup k pkm) /\
  txidIndex db' = txidIndex db /\
  (forall k, bytes_eqb k BUCKETPKHMap = false ->
             bytes_eqb k BUCKETChandata = false ->
             lookup k db' = lookup k db).
Proof.
  intros H. apply AddNewChannel_ok_inv in H.
  destruct H as (pkm & cda & elkBytes & Hpkm & Hcda & Hfresh & _ & _ & ->).
  split; [|split; [|split; [|split]]].
  - unfold channel, bkt_sub. rewrite Hcda, Hfresh. reflexivity.
  - intros p Hp. unfold channel, chanData, bkt_sub in *.
    rewrite lookup_insert_other by reflexivity.
    rewrite lookup_insert_same.
    destruct (lookup BUCKETChandata db) as [[v|cda0]|]; try discriminate.
    injection Hcda as ->. rewrite lookup_insert_other by exact Hp.
    reflexivity.
  - exists pkm. eexists. split; [exact Hpkm|]. split.
    + unfold pkhMap, bkt_sub. rewrite lookup_insert_same. reflexivity.
    + intros k Hk. apply lookup_insert_other, Hk.
  - unfold txidIndex, bkt_sub. rewrite !lookup_insert_other by reflexivity.
    reflexivity.
  - intros k H1 H2. rewrite !lookup_insert_other by assumption. reflexivity.
Qed.

End ChannelExtras.

Lemma AddNewChannel_needs_buckets_witness :
  @AddNewChannel counter_elkrem spec_codec io_ok [] (wd_of 1) =
    ([], Some ErrNoPKHmapBucket) /\
  @AddNewChannel counter_elkrem spec_codec io_ok db_nocda (wd_of 2) =
    (db_nocda, Some ErrNoChandataBucket).
Proof.
  destruct (@AddNewChannel_needs_buckets counter_elkrem spec_codec io_ok []
              (wd_of 1)) as (H1 & _).
  destruct (@AddNewChannel_needs_buckets counter_elkrem spec_codec io_ok
              db_nocda (wd_of 2)) as (_ & H2).
  split.
  - apply H1. reflexivity.
  - apply H2; vm_compute; [discriminate|reflexivity].
Defined.

Lemma AddNewChannel_touches_only_its_channel_witness :
  channel db_one (pkh_of 2) = None /\
  channel db_two (pkh_of 1) = channel db_one (pkh_of 1) /\
  txidIndex db_two = txidIndex db_one.
Proof.
  destruct (@AddNewChannel_touches_only_its_channel counter_elkrem spec_codec
              io_ok db_one db_two (wd_of 2)) as (H1 & H2 & _ & H3 & _).
  { vm_compute. reflexivity. }
  split; [exact H1|]. split; [|exact H3].
  apply H2. vm_compute. reflexivity.
Defined.

(** ** Further properties of [AddMsg] *)

Section HintExtras.

Context {elkrem : Elkrem}.

Lemma channel_inv (db : DB) (pkh : bytes) (chan : bucket) :
  channel db pkh = Some chan ->
  exists cda, lookup BUCKETChandata db = Some (Bkt cda) /\
              lookup pkh cda = Some (Bkt chan).
Proof.
  unfold channel, chanData, bkt_sub.
  destruct (lookup BUCKETChandata db) as [[v|cda]|]; try discriminate.
  destruct (lookup pkh cda) as [[w|c]|] eqn:E; try discriminate.
  intros [= ->]. exists cda. auto.
Qed.

(** X5: AddMsg for a channel that was never added fails with "no bucket
    for channel", and without the channel-data bucket with "no Chandata
    bucket"; the store is left as it was. *)
Theorem AddMsg_unknown_channel (f : io) (db : DB) (cm : ComMsg) :
  (chanData db = None ->
   AddMsg f db cm = (db, Some ErrNoChandataBucket)) /\
  (chanData db <> None -> channel db (DestPKH cm) = None ->
   AddMsg f db cm = (db, Some (ErrNoChannel (DestPKH cm)))).
Proof.
  unfold AddMsg, Update, AddMsg_fn, channel, chanData, bkt_sub. split.
  - intros Hc. tx_unfold. cbn [app resolve].
    destruct (lookup BUCKETChandata db) as [[v|cda]|]; try discriminate;
      reflexivity.
  - intros Hc Hch. tx_unfold. cbn [app resolve].
    destruct (lookup BUCKETChandata db) as [[v|cda]|] eqn:Ecda; try congruence.
    tx_simp.
    destruct (lookup (DestPKH cm) cda) as [[v|chan]|]; try discriminate;
      reflexivity.
Qed.

(** X6: when the stored receiver does not deserialise, when the receiver
    refuses the message's scalar, or when the advanced receiver does not
    serialise, AddMsg returns the collaborator's error and the store is
    left as it was: no receiver is advanced and no hint is filed. *)
Theorem AddMsg_receiver_errors (f : io) (db : DB) (cm : ComMsg)
    (chan : bucket) :
  channel db (DestPKH cm) = Some chan ->
  (forall c,
     ElkremReceiverFromBytes (slice (bkt_get chan KEYElkRcv)) = Bad c ->
     AddMsg f db cm = (db, Some (ErrCollab c))) /\
  (forall elkr elkr' c,
     ElkremReceiverFromBytes (slice (bkt_get chan KEYElkRcv)) = Good elkr ->
     AddNext elkr (Elk cm) = (elkr', Some c) ->
     AddMsg f db cm = (db, Some (ErrCollab c))) /\
  (forall elkr elkr' c,
     ElkremReceiverFromBytes (slice (bkt_get chan KEYElkRcv)) = Good elkr ->
     AddNext elkr (Elk cm) = (elkr', None) ->
     ElkToBytes elkr' = Bad c ->
     AddMsg f db cm = (db, Some (ErrCollab c))).
Proof.
  intros Hch. destruct (channel_inv _ _ _ Hch) as (cda & Ecda & Echan).
  unfold AddMsg, Update, AddMsg_fn. split; [|split].
  - intros c Hfrom. tx_unfold. tx_simp. reflexivity.
  - intros elkr elkr' c Hfrom Hadd. tx_unfold. tx_simp. reflexivity.
  - intros elkr elkr' c Hfrom Hadd Hto. tx_unfold. tx_simp. reflexivity.
Qed.

(** X7: a channel bucket without its index key makes AddMsg fail with
    "channel has no index", and a store without the hint bucket with "no
    txid bucket"; both are found only after the advanced receiver has been
    written in the transaction, yet the store is left as it was. *)
Theorem AddMsg_missing_index_or_hint_bucket (f : io) (db : DB) (cm : ComMsg)
    (chan : bucket) (elkr elkr' : ElkremReceiver) (elkBytes : bytes) :
  channel db (DestPKH cm) = Some chan ->
  ElkremReceiverFromBytes (slice (bkt_get chan KEYElkRcv)) = Good elkr ->
  AddNext elkr (Elk cm) = (elkr', None) ->
  ElkToBytes elkr' = Good elkBytes ->
  Z.of_nat (length elkBytes) <= MaxValueSize ->
  bkt_sub chan KEYElkRcv = None ->
  (bkt_get chan KEYIdx = None ->
   AddMsg f db cm = (db, Some (ErrNoIndex (DestPKH cm)))) /\
  (bkt_get chan KEYIdx <> None -> txidIndex db = None ->
   AddMsg f db cm = (db, Some ErrNoTxidBucket)).
Proof.
  intros Hch Hfrom Hadd Hto Hsize Hsub.
  destruct (channel_inv _ _ _ Hch) as (cda & Ecda & Echan).
  assert (Hput : bkt_put chan KEYElkRcv elkBytes =
                 Ok (insert KEYElkRcv (Val elkBytes) chan)).
  { apply bkt_put_ok; [cbn; lia|cbn; unfold MaxKeySize; lia|exact Hsize
                      |exact Hsub]. }
  unfold AddMsg, Update, AddMsg_fn. split.
  - intros Hidx. unfold bkt_get in Hidx.
    tx_unfold. tx_simp. cbn [option_map]. tx_simp. unfold bkt_get. tx_simp.
    destruct (lookup KEYIdx chan) as [[v|items]|]; try discriminate;
      reflexivity.
  - intros Hidx Htxi. unfold bkt_get in Hidx. unfold txidIndex, bkt_sub in Htxi.
    tx_unfold. tx_simp. cbn [option_map]. tx_simp. unfold bkt_get. tx_simp.
    destruct (lookup KEYIdx chan) as [[v|items]|]; try congruence.
    tx_simp.
    destruct (lookup BUCKETTxid db) as [[w|txi]|]; try discriminate;
      reflexivity.
Qed.

End HintExtras.

Lemma AddMsg_unknown_channel_witness :
  @AddMsg counter_elkrem io_ok db_nocda (cm_of 1 txid_a) =
    (db_nocda, Some ErrNoChandataBucket) /\
  @AddMsg counter_elkrem io_ok db_one (cm_of 2 txid_a) =
    (db_one, Some (ErrNoChannel (pkh_of 2))).
Proof.
  destruct (@AddMsg_unknown_channel counter_elkrem io_ok db_nocda
              (cm_of 1 txid_a)) as (H1 & _).
  destruct (@AddMsg_unknown_channel counter_elkrem io_ok db_one
              (cm_of 2 txid_a)) as (_ & H2).
  split.
  - apply H1. vm_compute. reflexivity.
  - apply H2; vm_compute; [discriminate|reflexivity].
Defined.

Lemma AddMsg_receiver_errors_witness :
  @AddMsg counter_elkrem io_ok db_badelk (cm_of 1 txid_a) =
    (db_badelk, Some (ErrCollab MalformedReceiver)) /\
  @AddMsg linked_elkrem io_ok db_one (cm_of 1 txid_a) =
    (db_one, Some (ErrCollab HashTreeReject)).
Proof.
  split.
  - destruct (@AddMsg_receiver_errors counter_elkrem io_ok db_badelk
                (cm_of 1 txid_a)
                (or_empty (channel db_badelk (pkh_of 1)))) as (H1 & _).
    { vm_compute. reflexivity. }
    apply (H1 MalformedReceiver). vm_compute. reflexivity.
  - destruct (@AddMsg_receiver_errors linked_elkrem io_ok db_one
                (cm_of 1 txid_a)
                (or_empty (channel db_one (pkh_of 1)))) as (_ & H2 & _).
    { vm_compute. reflexivity. }
    apply (H2 (mkCounter 1 (be_encode 32 1)) (mkCounter 1 (be_encode 32 1))
              HashTreeReject); vm_compute; reflexivity.
Defined.

Lemma AddMsg_missing_index_or_hint_bucket_witness :
  @AddMsg counter_elkrem io_ok db_noidx (cm_of 1 txid_a) =
    (db_noidx, Some (ErrNoIndex (pkh_of 1))) /\
  @AddMsg counter_elkrem io_ok db_notxi (cm_of 1 txid_a) =
    (db_notxi, Some ErrNoTxidBucket).
Proof.
  split.
  - destruct (@AddMsg_missing_index_or_hint_bucket counter_elkrem io_ok
                db_noidx (cm_of 1 txid_a)
                (or_empty (channel db_noidx (pkh_of 1)))
                (mkCounter 1 (be_encode 32 1)) (mkCounter 2 (be_encode 32 5))
                (U64tB 2 ++ be_encode 32 5)) as (H1 & _);
      [vm_compute; reflexivity | vm_compute; reflexivity
      | vm_compute; reflexivity | vm_compute; reflexivity
      | vm_compute; intros H; discriminate H | vm_compute; reflexivity | ].
    apply H1. vm_compute. reflexivity.
  - destruct (@AddMsg_missing_index_or_hint_bucket counter_elkrem io_ok
                db_notxi (cm_of 1 txid_a)
                (or_empty (channel db_notxi (pkh_of 1)))
                (mkCounter 1 (be_encode 32 1)) (mkCounter 2 (be_encode 32 5))
                (U64tB 2 ++ be_encode 32 5)) as (_ & H2);
      [vm_compute; reflexivity | vm_compute; reflexivity
      | vm_compute; reflexivity | vm_compute; reflexivity
      | vm_compute; intros H; discriminate H | vm_compute; reflexivity | ].
    apply H2; vm_compute; [discriminate|reflexivity].
Defined.

Section HintIsolation.

Context {elkrem : Elkrem}.

(** X8: a successful AddMsg changes one key of one channel and one slot of
    the hint index: the channel keeps its static record and its index,
    every other channel bucket, every other hint and the whole index map
    are as before. *)
Theorem AddMsg_touches_only_its_channel (f : io) (db db' : DB) (cm : ComMsg) :
  AddMsg f db cm = (db', None) ->
  (exists chan chan',
     channel db (DestPKH cm) = Some chan /\
     channel db' (DestPKH cm) = Some chan' /\
     forall k, bytes_eqb k KEYElkRcv = false ->
               lookup k chan' = lookup k chan) /\
  (forall p, bytes_eqb p (DestPKH cm) = false ->
     channel db' p = channel db p) /\
  (forall key, bytes_eqb key (firstn 8 (ParTxid cm)) = false ->
     hintAt db' key = hintAt db key) /\
  pkhMap db' = pkhMap db.
Proof.
  intros H. pose proof (AddMsg_ok_view _ _ _ _ H)
    as (chan & elkr & elkr' & elkBytes & cIdxBytes & Hch & _ & _ & _ & _ &
        Hch' & _ & Hother & Hpkm).
  split; [|split; [|split]].
  - exists chan. eexists. split; [exact Hch|]. split; [exact Hch'|].
    intros k Hk. apply lookup_insert_other, Hk.
  - apply AddMsg_ok_inv in H.
    destruct H as (cda & chan0 & r0 & r1 & eb & ci & txi & Hcda & _ & _ & _ &
                   _ & _ & _ & ->).
    intros p Hp. unfold channel, chanData, bkt_sub in *.
    rewrite lookup_insert_other by reflexivity.
    rewrite lookup_insert_same.
    destruct (lookup BUCKETChandata db) as [[v|cda0]|]; try discriminate.
    injection Hcda as ->. rewrite lookup_insert_other by exact Hp.
    reflexivity.
  - exact Hother.
  - exact Hpkm.
Qed.

Lemma skipn_make (k n : nat) : skipn k (make n) = make (n - k).
Proof.
  unfold make. revert k. induction n as [|n IH]; intros [|k]; cbn; auto.
Qed.

Lemma firstn_make (k n : nat) : firstn k (make n) = make (Nat.min k n).
Proof.
  unfold make. revert k. induction n as [|n IH]; intros [|k]; cbn; auto.
  rewrite IH. reflexivity.
Qed.

Lemma copy_make (n : nat) (src : bytes) :
  copy (make n) src = firstn n (src ++ make n).
Proof.
  unfold copy. rewrite make_length, firstn_app. f_equal.
  rewrite skipn_make, firstn_make. f_equal. lia.
Qed.

(** X9: the record AddMsg assembles is always 74 bytes long, whatever the
    length of the index bytes it read from the channel bucket: a 4-byte
    index and a 64-byte signature give index ++ low 6 bytes of the counter
    ++ signature; a source of a copy that is shorter than its window
    leaves the zero bytes of the fresh record at the window's end, and a
    longer one is cut. *)
Theorem AddMsg_record_layout (cIdxBytes sig : bytes) (upTo : Z) :
  length (sigIdxBytes_of cIdxBytes upTo sig) = 74%nat /\
  sigIdxBytes_of cIdxBytes upTo sig =
    firstn 4 (cIdxBytes ++ make 4) ++ skipn 2 (U64tB upTo) ++
    firstn 64 (sig ++ make 64) /\
  (length cIdxBytes = 4%nat -> length sig = 64%nat ->
   sigIdxBytes_of cIdxBytes upTo sig =
     cIdxBytes ++ skipn 2 (U64tB upTo) ++ sig).
Proof.
  split; [apply sigIdxBytes_length|]. split.
  - rewrite sigIdxBytes_layout, !copy_make, skipn_U64tB. reflexivity.
  - intros Hi Hs. rewrite sigIdxBytes_layout, skipn_U64tB.
    rewrite !copy_exact by (rewrite make_length; assumption). reflexivity.
Qed.

End HintIsolation.

Lemma AddMsg_touches_only_its_channel_witness :
  channel db_hint (pkh_of 2) = channel db_one (pkh_of 2) /\
  pkhMap db_hint = pkhMap db_one /\
  (exists chan chan',
     channel db_one (pkh_of 1) = Some chan /\
     channel db_hint (pkh_of 1) = Some chan' /\
     lookup KEYStatic chan' = lookup KEYStatic chan /\
     lookup KEYIdx chan' = lookup KEYIdx chan).
Proof.
  destruct (@AddMsg_touches_only_its_channel counter_elkrem io_ok db_one
              db_hint (cm_of 1 txid_a))
    as ((chan & chan' & Hc & Hc' & Hkeys) & Hother & _ & Hpkm).
  { vm_compute. reflexivity. }
  split; [apply Hother; vm_compute; reflexivity|]. split; [exact Hpkm|].
  exists chan, chan'. split; [exact Hc|]. split; [exact Hc'|].
  split; apply Hkeys; reflexivity.
Defined.

Lemma AddMsg_record_layout_witness :
  sigIdxBytes_of (U32tB 7) 258 (be_encode 64 11) =
    U32tB 7 ++ [x00; x00; x00; x00; x01; x02] ++ be_encode 64 11 /\
  sigIdxBytes_of [x09] 258 [] =
    [x09; x00; x00; x00] ++ [x00; x00; x00; x00; x01; x02] ++ make 64.
Proof.
  destruct (AddMsg_record_layout (U32tB 7) (be_encode 64 11) 258)
    as (_ & _ & H1).
  destruct (AddMsg_record_layout [x09] [] 258) as (_ & H2 & _).
  split.
  - rewrite H1; reflexivity.
  - rewrite H2. reflexivity.
Defined.

Section HintComposition.

Context {elkrem : Elkrem} {codec : DescCodec}.

(** X10: a hint added for a channel right after the channel was created
    starts with the index AddNewChannel gave the channel, and the index
    map leads from these 4 bytes back to the message's dest_pkh. *)
Theorem AddMsg_hint_carries_assigned_index (f f' : io) (db db1 db2 : DB)
    (wd : WatchannelDescriptor) (cm : ComMsg) :
  AddNewChannel f db wd = (db1, None) ->
  AddMsg f' db1 cm = (db2, None) ->
  DestPKH cm = DestPKHScript wd ->
  exists pkm record pkm2,
    pkhMap db = Some pkm /\
    hintAt db2 (firstn 8 (ParTxid cm)) = Some record /\
    firstn 4 record = U32tB (nextIndex pkm) /\
    pkhMap db2 = Some pkm2 /\
    bkt_get pkm2 (firstn 4 record) = Some (DestPKH cm).
Proof.
  intros Hadd Hmsg Hpkh.
  apply AddNewChannel_ok_view in Hadd.
  destruct Hadd as (pkm & elkBytes & Hpkm & _ & Hchan & Hpkm1 & _).
  apply AddMsg_ok_view in Hmsg.
  destruct Hmsg as (chan & elkr & elkr' & elkBytes' & cIdxBytes & Hch & _ & _ &
                    _ & Hidx & _ & Hhint & _ & Hpkm2).
  rewrite Hpkh, Hchan in Hch. injection Hch as <-.
  assert (HcIdx : cIdxBytes = U32tB (nextIndex pkm)).
  { change (Some (U32tB (nextIndex pkm)) = Some cIdxBytes) in Hidx.
    congruence. }
  subst cIdxBytes.
  assert (Hfirst : firstn 4 (sigIdxBytes_of (U32tB (nextIndex pkm))
                               (UpTo elkr') (CmSig cm)) =
                   U32tB (nextIndex pkm)).
  { rewrite sigIdxBytes_layout.
    rewrite copy_exact by (rewrite make_length, U32tB_length; reflexivity).
    apply firstn_app_l, U32tB_length. }
  exists pkm. eexists. eexists.
  split; [exact Hpkm|]. split; [exact Hhint|]. split; [exact Hfirst|].
  split; [rewrite Hpkm2; exact Hpkm1|].
  rewrite Hfirst, Hpkh. unfold bkt_get. rewrite lookup_insert_same.
  reflexivity.
Qed.

End HintComposition.

Lemma AddMsg_hint_carries_assigned_index_witness :
  exists record,
    hintAt (fst (@AddMsg counter_elkrem io_ok db_two (cm_of 2 txid_a)))
           (firstn 8 txid_a) = Some record /\
    firstn 4 record = U32tB 1.
Proof.
  destruct (@AddMsg_hint_carries_assigned_index counter_elkrem spec_codec
              io_ok io_ok db_one db_two
              (fst (@AddMsg counter_elkrem io_ok db_two (cm_of 2 txid_a)))
              (wd_of 2) (cm_of 2 txid_a))
    as (pkm & record & pkm2 & Hpkm & Hhint & Hfirst & _);
    [vm_compute; reflexivity | vm_compute; reflexivity | reflexivity | ].
  exists record. split; [exact Hhint|]. rewrite Hfirst.
  assert (E : pkhMap db_one = Some (dense [pkh_of 1])) by reflexivity.
  rewrite E in Hpkm. injection Hpkm as <-. reflexivity.
Defined.

(** ** Further properties of [IngestTx] *)

Lemma IngestTx_eq (db : DB) (txid : bytes) :
  IngestTx db txid =
  match txidIndex db with
  | None => (None, Some ErrNoTxidBucket)
  | Some txi =>
      match bkt_get txi (firstn 16 txid) with
      | None => (None, None)
      | Some b =>
          match IdxSigFromBytes b with
          | Good hitsig => (Some hitsig, None)
          | Bad c => (None, Some (ErrCollab c))
          end
      end
  end.
Proof.
  unfold txidIndex, bkt_sub.
  destruct (lookup BUCKETTxid db) as [[v|txi]|] eqn:Etxi;
    unfold IngestTx, View, IngestTx_fn; tx_unfold;
    cbn [app resolve]; rewrite Etxi; cbn [app resolve fst snd];
    rewrite ?Etxi; try reflexivity.
  destruct (bkt_get txi (firstn 16 txid)) as [b|]; [|reflexivity].
  destruct (IdxSigFromBytes b); reflexivity.
Qed.

(** X11: the answer of IngestTx is fixed by the hint bucket and the first
    16 bytes of the identifier: the other buckets are not looked at, and
    two identifiers with the same 16-byte prefix get the same answer. *)
Theorem IngestTx_reads_only_hint_prefix (db1 db2 : DB) (txid1 txid2 : bytes) :
  txidIndex db1 = txidIndex db2 ->
  firstn 16 txid1 = firstn 16 txid2 ->
  IngestTx db1 txid1 = IngestTx db2 txid2.
Proof.
  intros Hdb Htx. rewrite !IngestTx_eq, Hdb, Htx. reflexivity.
Qed.


Lemma IngestTx_reads_only_hint_prefix_witness :
  IngestTx db_hint16 txid_a =
  IngestTx (fst (@AddNewChannel counter_elkrem spec_codec io_ok db_hint16
                   (wd_of 2))) txid_b.
Proof.
  apply IngestTx_reads_only_hint_prefix; vm_compute; reflexivity.
Defined.


(** ** Further properties of [BuildJusticeTx] *)

Section JusticeExtras.

Context {elkrem : Elkrem} {codec : DescCodec} {chain : Chain}.

(** What the read-only transaction of [BuildJusticeTx] finds, lookup by
    lookup. *)
Lemma BuildJusticeTx_fn_eq (db : DB) (isig : IdxSig) :
  View db (BuildJusticeTx_fn isig) =
  match pkhMap db with
  | None => Err ErrNoPKHmapBucket
  | Some pkm =>
  match bkt_get pkm (U32tB (PKHIdx isig)) with
  | None => Err (ErrNoPkhForIndex (PKHIdx isig))
  | Some pkh =>
  match chanData db with
  | None => Err ErrNoChannelBucket
  | Some cda =>
  match bkt_sub cda pkh with
  | None => Err (ErrNoPkhBucket pkh)
  | Some chan =>
  match bkt_get chan KEYStatic with
  | None => Err (ErrNoStatic pkh)
  | Some static =>
  match WatchannelDescriptorFromBytes static with
  | Bad c => Err (ErrCollab c)
  | Good wd =>
  match bkt_get chan KEYElkRcv with
  | None => Err (ErrNoElkrem pkh)
  | Some elkBytes =>
  match ElkremReceiverFromBytes elkBytes with
  | Bad c => Err (ErrCollab c)
  | Good elkRcv => Ok (wd, elkRcv)
  end end end end end end end end.
Proof.
  unfold View, BuildJusticeTx_fn. tx_unfold.
  unfold pkhMap, chanData, bkt_sub, bkt_get. tx_simp.
  destruct (lookup BUCKETPKHMap db) as [[v|pkm]|] eqn:Epkm; tx_simp;
    try reflexivity.
  destruct (lookup (U32tB (PKHIdx isig)) pkm) as [[pkh|items]|] eqn:Epkh;
    tx_simp; try reflexivity.
  destruct (lookup BUCKETChandata db) as [[v|cda]|] eqn:Ecda; tx_simp;
    try reflexivity.
  destruct (lookup pkh cda) as [[v|chan]|] eqn:Echan; tx_simp;
    try reflexivity.
  destruct (lookup KEYStatic chan) as [[static|items]|] eqn:Esta; tx_simp;
    try reflexivity.
  destruct (WatchannelDescriptorFromBytes static) as [wd|c] eqn:Ewd; tx_simp;
    try reflexivity.
  destruct (lookup KEYElkRcv chan) as [[elkBytes|items]|] eqn:Eelk; tx_simp;
    try reflexivity.
  destruct (ElkremReceiverFromBytes elkBytes) as [r|c] eqn:Er; tx_simp;
    reflexivity.
Qed.

Lemma BuildJusticeTx_load_err (db : DB) (badTx : MsgTx) (isig : IdxSig)
    (e : error) :
  View db (BuildJusticeTx_fn isig) = Err e ->
  BuildJusticeTx db badTx isig = Err e.
Proof. intros H. unfold BuildJusticeTx. rewrite H. reflexivity. Qed.

(** X13: BuildJusticeTx on a hint whose index the index map does not hold
    fails with "No pkh found for index"; when the index map leads to a
    dest_pkh without a channel bucket, or the channel bucket lacks its
    static record or its receiver, it fails with the error that names the
    missing piece, and without the index-map bucket with "no PKHmap
    bucket". *)
Theorem BuildJusticeTx_missing_pieces (db : DB) (badTx : MsgTx)
    (isig : IdxSig) :
  (pkhMap db = None ->
   BuildJusticeTx db badTx isig = Err ErrNoPKHmapBucket) /\
  (forall pkm, pkhMap db = Some pkm ->
     bkt_get pkm (U32tB (PKHIdx isig)) = None ->
     BuildJusticeTx db badTx isig = Err (ErrNoPkhForIndex (PKHIdx isig))) /\
  (forall pkm pkh cda, pkhMap db = Some pkm ->
     bkt_get pkm (U32tB (PKHIdx isig)) = Some pkh ->
     chanData db = Some cda -> bkt_sub cda pkh = None ->
     BuildJusticeTx db badTx isig = Err (ErrNoPkhBucket pkh)) /\
  (forall pkm pkh cda chan, pkhMap db = Some pkm ->
     bkt_get pkm (U32tB (PKHIdx isig)) = Some pkh ->
     chanData db = Some cda -> bkt_sub cda pkh = Some chan ->
     bkt_get chan KEYStatic = None ->
     BuildJusticeTx db badTx isig = Err (ErrNoStatic pkh)) /\
  (forall pkm pkh cda chan static wd, pkhMap db = Some pkm ->
     bkt_get pkm (U32tB (PKHIdx isig)) = Some pkh ->
     chanData db = Some cda -> bkt_sub cda pkh = Some chan ->
     bkt_get chan KEYStatic = Some static ->
     WatchannelDescriptorFromBytes static = Good wd ->
     bkt_get chan KEYElkRcv = None ->
     BuildJusticeTx db badTx isig = Err (ErrNoElkrem pkh)).
Proof.
  repeat split; intros; apply BuildJusticeTx_load_err;
    rewrite BuildJusticeTx_fn_eq;
    repeat match goal with
           | H : ?x = _ |- context [?x] => rewrite H
           end; reflexivity.
Qed.

(** X14: when the receiver cannot give the scalar of the hint's state
    index, or a base point of the stored descriptor does not parse,
    BuildJusticeTx returns that collaborator's error and no transaction,
    whatever the offending transaction is. *)
Theorem BuildJusticeTx_collaborator_errors (db : DB) (badTx : MsgTx)
    (isig : IdxSig) (wd : WatchannelDescriptor) (elkRcv : ElkremReceiver) :
  View db (BuildJusticeTx_fn isig) = Ok (wd, elkRcv) ->
  (forall c, AtIndex elkRcv (StateIdx isig) = Bad c ->
     BuildJusticeTx db badTx isig = Err (ErrCollab c)) /\
  (forall s c, AtIndex elkRcv (StateIdx isig) = Good s ->
     ParsePubKey (AdversaryBasePoint wd) = Bad c ->
     BuildJusticeTx db badTx isig = Err (ErrCollab c)) /\
  (forall s A c, AtIndex elkRcv (StateIdx isig) = Good s ->
     ParsePubKey (AdversaryBasePoint wd) = Good A ->
     ParsePubKey (CustomerBasePoint wd) = Bad c ->
     BuildJusticeTx db badTx isig = Err (ErrCollab c)).
Proof.
  intros Hview. unfold BuildJusticeTx. rewrite Hview.
  repeat split; intros;
    repeat match goal with
           | H : ?x = _ |- context [?x] => rewrite H
           end; reflexivity.
Qed.

(** X15: right after AddNewChannel has created a channel, the read-only
    transaction of BuildJusticeTx, asked for the index the channel was
    given, finds the first 96 bytes of the descriptor's serialisation and
    the serialised receiver holding the descriptor's first scalar, and
    hands them to the two decoders. *)
Theorem BuildJusticeTx_loads_new_channel (f : io) (db db' : DB)
    (wd : WatchannelDescriptor) (isig : IdxSig) (pkm : bucket)
    (elkBytes : bytes) :
  AddNewChannel f db wd = (db', None) ->
  pkhMap db = Some pkm ->
  ElkToBytes (fst (AddNext ElkremReceiver_zero (ElkZero wd))) = Good elkBytes ->
  PKHIdx isig = nextIndex pkm ->
  View db' (BuildJusticeTx_fn isig) =
    match WatchannelDescriptorFromBytes (firstn 96 (ToBytes wd)) with
    | Bad c => Err (ErrCollab c)
    | Good wd' =>
        match ElkremReceiverFromBytes elkBytes with
        | Bad c => Err (ErrCollab c)
        | Good elkRcv => Ok (wd', elkRcv)
        end
    end.
Proof.
  intros Hadd Hpkm Helk Hidx. apply AddNewChannel_ok_inv in Hadd.
  destruct Hadd as (pkm0 & cda & elkBytes0 & Hpkm0 & Hcda & _ & _ & Helk0 & ->).
  rewrite Hpkm in Hpkm0. injection Hpkm0 as <-.
  rewrite Helk in Helk0. injection Helk0 as <-.
  rewrite BuildJusticeTx_fn_eq, Hidx.
  unfold pkhMap, chanData, bkt_sub, bkt_get.
  rewrite lookup_insert_same, lookup_insert_same.
  rewrite (lookup_insert_other BUCKETPKHMap BUCKETChandata) by reflexivity.
  rewrite lookup_insert_same, lookup_insert_same.
  reflexivity.
Qed.

(** X16: every transaction BuildJusticeTx returns has version 1, lock time
    0, one input and one output; the input spends an output of the
    offending transaction whose script is the first to equal the
    reconstructed one, at an index other than 999, with sequence 1, an
    empty signature script and the witness (01, expanded signature); the
    output pays the stored dest_pkh the output's value minus the fee in
    int64 arithmetic. *)
Theorem BuildJusticeTx_shape (db : DB) (badTx tx : MsgTx) (isig : IdxSig) :
  BuildJusticeTx db badTx isig = Ok tx ->
  exists wd sh n,
    reconstructs db isig wd sh /\
    first_match sh (TxOuts badTx) n /\ n <> 999%nat /\
    Version tx = 1 /\ LockTime tx = 0 /\
    TxIns tx = [mkTxIn (mkOutPoint (TxHash badTx) (u32 (Z.of_nat n))) []
                       [[x01]; SigDecompress (Sig isig)] 1] /\
    TxOuts tx =
      [mkTxOut (i64 (Value (nth n (TxOuts badTx) dummyTxOut) - Fee wd))
               (DirectWPKHScriptFromPKH (DestPKHScript wd))].
Proof.
  intros H. unfold BuildJusticeTx in H.
  destruct (View db (BuildJusticeTx_fn isig)) as [[wd elkRcv]|] eqn:Hview;
    [|discriminate].
  destruct (AtIndex elkRcv (StateIdx isig)) as [s|] eqn:Hat; [|discriminate].
  destruct (ParsePubKey (AdversaryBasePoint wd)) as [A|] eqn:HA;
    [|discriminate].
  destruct (ParsePubKey (CustomerBasePoint wd)) as [C|] eqn:HC;
    [|discriminate].
  rewrite assemble_find in H.
  destruct (find_first _ (TxOuts badTx)) as [n|] eqn:E; [|discriminate].
  destruct (Nat.eqb_spec n 999) as [|Hne]; [discriminate|].
  injection H as <-.
  exists wd. eexists. exists n.
  split; [exists elkRcv, s, A, C; auto|].
  split; [apply find_first_Some, E|].
  repeat split; assumption.
Qed.

(** X17: BuildJusticeTx does not look at the sign of the amount: when the
    fee exceeds the value of the matched output, it still returns the
    transaction, whose single output carries the negative difference. *)
Theorem BuildJusticeTx_no_amount_check (db : DB) (badTx : MsgTx)
    (isig : IdxSig) (wd : WatchannelDescriptor) (sh : bytes) (n : nat) :
  reconstructs db isig wd sh -> first_match sh (TxOuts badTx) n ->
  n <> 999%nat ->
  0 <= Value (nth n (TxOuts badTx) dummyTxOut) < Fee wd ->
  Fee wd < 2 ^ 63 ->
  exists tx,
    BuildJusticeTx db badTx isig = Ok tx /\
    TxOuts tx =
      [mkTxOut (Value (nth n (TxOuts badTx) dummyTxOut) - Fee wd)
               (DirectWPKHScriptFromPKH (DestPKHScript wd))] /\
    Value (nth n (TxOuts badTx) dummyTxOut) - Fee wd < 0.
Proof.
  intros Hrec Hm Hne Hval Hfee. eexists. split; [|split].
  - apply (BuildJusticeTx_first_match _ _ _ _ _ _ Hrec Hm Hne).
  - cbn [justiceTx_of TxOuts]. f_equal. f_equal. unfold i64.
    rewrite Z.mod_small by lia. lia.
  - lia.
Qed.

End JusticeExtras.

Lemma BuildJusticeTx_missing_pieces_witness :
  @BuildJusticeTx counter_elkrem spec_codec toy_chain [] (badTx_at 3)
    isig_one = Err ErrNoPKHmapBucket /\
  @BuildJusticeTx counter_elkrem spec_codec toy_chain db_hint (badTx_at 3)
    isig_unknown = Err (ErrNoPkhForIndex 7) /\
  @BuildJusticeTx counter_elkrem spec_codec toy_chain db_orphan (badTx_at 3)
    isig_one = Err (ErrNoPkhBucket (pkh_of 1)) /\
  @BuildJusticeTx counter_elkrem spec_codec toy_chain db_nosta (badTx_at 3)
    isig_one = Err (ErrNoStatic (pkh_of 1)) /\
  @BuildJusticeTx counter_elkrem spec_codec toy_chain db_noelk (badTx_at 3)
    isig_one = Err (ErrNoElkrem (pkh_of 1)).
Proof.
  destruct (@BuildJusticeTx_missing_pieces counter_elkrem spec_codec toy_chain
              [] (badTx_at 3) isig_one) as (H1 & _).
  destruct (@BuildJusticeTx_missing_pieces counter_elkrem spec_codec toy_chain
              db_hint (badTx_at 3) isig_unknown) as (_ & H2 & _).
  destruct (@BuildJusticeTx_missing_pieces counter_elkrem spec_codec toy_chain
              db_orphan (badTx_at 3) isig_one) as (_ & _ & H3 & _).
  destruct (@BuildJusticeTx_missing_pieces counter_elkrem spec_codec toy_chain
              db_nosta (badTx_at 3) isig_one) as (_ & _ & _ & H4 & _).
  destruct (@BuildJusticeTx_missing_pieces counter_elkrem spec_codec toy_chain
              db_noelk (badTx_at 3) isig_one) as (_ & _ & _ & _ & H5).
  split; [apply H1; reflexivity|].
  split; [apply (H2 (dense [pkh_of 1])); vm_compute; reflexivity|].
  split; [apply (H3 (dense [pkh_of 1]) (pkh_of 1) []); vm_compute; reflexivity|].
  split.
  - apply (H4 (dense [pkh_of 1]) (pkh_of 1)
              (or_empty (chanData db_nosta))
              (or_empty (channel db_nosta (pkh_of 1))));
      vm_compute; reflexivity.
  - apply (H5 (dense [pkh_of 1]) (pkh_of 1)
              (or_empty (chanData db_noelk))
              (or_empty (channel db_noelk (pkh_of 1)))
              (firstn 96 (@ToBytes spec_codec (wd_of 1))) wd_one);
      vm_compute; reflexivity.
Defined.

Lemma BuildJusticeTx_collaborator_errors_witness :
  @BuildJusticeTx counter_elkrem spec_codec toy_chain db_hint (badTx_at 3)
    isig_future = Err (ErrCollab HashTreeOutOfRange).
Proof.
  destruct (@BuildJusticeTx_collaborator_errors counter_elkrem spec_codec
              toy_chain db_hint (badTx_at 3) isig_future wd_one
              (mkCounter 2 (be_encode 32 5))) as (H1 & _).
  { vm_compute. reflexivity. }
  apply (H1 HashTreeOutOfRange). vm_compute. reflexivity.
Defined.

Lemma BuildJusticeTx_loads_new_channel_witness :
  View db_one (@BuildJusticeTx_fn counter_elkrem spec_codec
                 (BuildIdxSig 0 0 (be_encode 64 11))) =
  Ok (wd_one, mkCounter 1 (be_encode 32 1)).
Proof.
  rewrite (@BuildJusticeTx_loads_new_channel counter_elkrem spec_codec io_ok
             db_opened db_one (wd_of 1) (BuildIdxSig 0 0 (be_encode 64 11))
             [] (U64tB 1 ++ be_encode 32 1));
    [|vm_compute; reflexivity|reflexivity|reflexivity|reflexivity].
  vm_compute. reflexivity.
Defined.

Lemma BuildJusticeTx_shape_witness :
  exists wd sh n,
    @reconstructs counter_elkrem spec_codec toy_chain db_hint isig_one wd sh /\
    first_match sh (TxOuts (badTx_at 3)) n /\ n <> 999%nat /\
    Version (@justiceTx_of toy_chain (badTx_at 3) isig_one wd_one 3) = 1 /\
    LockTime (@justiceTx_of toy_chain (badTx_at 3) isig_one wd_one 3) = 0 /\
    TxIns (@justiceTx_of toy_chain (badTx_at 3) isig_one wd_one 3) =
      [mkTxIn (mkOutPoint (@TxHash toy_chain (badTx_at 3)) (u32 (Z.of_nat n)))
              [] [[x01]; @SigDecompress toy_chain (Sig isig_one)] 1] /\
    TxOuts (@justiceTx_of toy_chain (badTx_at 3) isig_one wd_one 3) =
      [mkTxOut (i64 (Value (nth n (TxOuts (badTx_at 3)) dummyTxOut) - Fee wd))
               (@DirectWPKHScriptFromPKH toy_chain (DestPKHScript wd))].
Proof.
  apply (@BuildJusticeTx_shape counter_elkrem spec_codec toy_chain db_hint
           (badTx_at 3)).
  vm_compute. reflexivity.
Defined.

Lemma BuildJusticeTx_no_amount_check_witness :
  exists tx,
    @BuildJusticeTx counter_elkrem spec_codec toy_chain db_hint badTx_poor
      isig_one = Ok tx /\
    TxOuts tx = [mkTxOut (-454) (x00 :: x14 :: pkh_of 1)].
Proof.
  destruct (@BuildJusticeTx_no_amount_check counter_elkrem spec_codec
              toy_chain db_hint badTx_poor isig_one wd_one sh_one 0
              reconstructs_one) as (tx & Htx & Houts & _).
  - apply find_first_Some. vm_compute. reflexivity.
  - discriminate.
  - vm_compute. split; [discriminate|reflexivity].
  - reflexivity.
  - exists tx. split; [exact Htx|]. rewrite Houts. reflexivity.
Defined.

(** ** Invariants of the reachable stores *)

Lemma dense_next_fresh (pkhs : list bytes) :
  Z.of_nat (length pkhs) < 2 ^ 32 ->
  lookup (U32tB (Z.of_nat (length pkhs))) (dense pkhs) = None.
Proof.
  intros Hn.
  destruct (lookup (U32tB (Z.of_nat (length pkhs))) (dense pkhs)) as [nd|] eqn:E;
    [|reflexivity].
  apply lookup_In in E. apply (in_map fst) in E. cbn [fst] in E.
  apply dense_from_keys in E. destruct E as (j & Hj & Heq).
  apply U32tB_inj in Heq; lia.
Qed.

Section Invariants.

Context {elkrem : Elkrem} {codec : DescCodec}.

(** X18: in every store reached with at most 2^32 successful AddNewChannel
    calls, each channel bucket holds a 4-byte index under which the index
    map holds the channel's own dest_pkh, a static record of exactly 96
    bytes, and a receiver: the reverse lookup of BuildJusticeTx finds the
    channel a hint was filed for. *)
Theorem reachable_consistent (n : nat) (db : DB) :
  reachable n db -> Z.of_nat n <= 2 ^ 32 -> consistent db.
Proof.
  induction 1 as [|n db f Hr IH|n db f wd db' Hr IH Hadd
                  |n db f wd db' e Hr IH Hadd|n db f cm Hr IH]; intros Hn.
  - intros pkh chan H. discriminate H.
  - destruct (OpenDB_view f db) as [->|(Hp & Hc & _)]; [exact (IH Hn)|].
    intros pkh chan Hch. unfold channel in Hch. rewrite Hc in Hch.
    destruct (chanData db) as [cda|] eqn:Ecda; [|discriminate Hch].
    cbn [or_empty] in Hch.
    destruct (IH Hn pkh chan) as (idx & pkm & sta & H1 & H2 & H3 & H4);
      [unfold channel; rewrite Ecda; exact Hch|].
    exists idx, pkm, sta. rewrite Hp, H3. auto.
  - assert (Hn' : Z.of_nat n <= 2 ^ 32) by lia.
    destruct (reachable_indexed n db Hr Hn') as (pkhs & Hlen & _ & Hinv).
    apply AddNewChannel_ok_inv in Hadd.
    destruct Hadd as (pkm & cda & elkBytes & Hpkm & Hcda & Hfresh & Hsz & _ & ->).
    destruct Hinv as [[-> _]|(Hdense & _)]; [discriminate Hpkm|].
    rewrite Hpkm in Hdense. injection Hdense as ->.
    assert (Hlt : Z.of_nat (length pkhs) < 2 ^ 32) by lia.
    rewrite nextIndex_dense by exact Hlt.
    intros p chan Hch. unfold channel, chanData, bkt_sub in Hch.
    rewrite lookup_insert_other in Hch by reflexivity.
    rewrite lookup_insert_same in Hch.
    destruct (bytes_eqb p (DestPKHScript wd)) eqn:Ep.
    + apply bytes_eqb_eq in Ep. subst p. rewrite lookup_insert_same in Hch.
      injection Hch as <-.
      exists (U32tB (Z.of_nat (length pkhs))). eexists.
      exists (firstn 96 (ToBytes wd)).
      split; [reflexivity|]. split; [apply U32tB_length|].
      split; [unfold pkhMap, bkt_sub; rewrite lookup_insert_same; reflexivity|].
      split; [unfold bkt_get; rewrite lookup_insert_same; reflexivity|].
      split; [reflexivity|]. split; [apply firstn_length_le, Hsz|].
      discriminate.
    + rewrite lookup_insert_other in Hch by exact Ep.
      destruct (IH Hn' p chan) as (idx & pkm0 & sta & H1 & H2 & H3 & H4 & H5);
        [unfold channel, bkt_sub; rewrite Hcda; exact Hch|].
      rewrite Hpkm in H3. injection H3 as <-.
      exists idx. eexists. exists sta.
      split; [exact H1|]. split; [exact H2|].
      split; [unfold pkhMap, bkt_sub; rewrite lookup_insert_same; reflexivity|].
      split; [|exact H5].
      unfold bkt_get in *. rewrite lookup_insert_other; [exact H4|].
      destruct (bytes_eqb idx (U32tB (Z.of_nat (length pkhs)))) eqn:Ei;
        [|reflexivity].
      apply bytes_eqb_eq in Ei. subst idx.
      rewrite (dense_next_fresh pkhs Hlt) in H4. discriminate H4.
  - apply Update_rollback in Hadd. subst db'. exact (IH Hn).
  - destruct (AddMsg f db cm) as [db' [e|]] eqn:E; cbn [fst].
    { apply Update_rollback in E. subst db'. exact (IH Hn). }
    apply AddMsg_ok_inv in E.
    destruct E as (cda & chan0 & elkr & elkr' & elkBytes & cIdxBytes & txi &
                   Hcda & Hchan & _ & _ & _ & _ & _ & ->).
    intros p chan Hch. unfold channel, chanData, bkt_sub in Hch.
    rewrite lookup_insert_other in Hch by reflexivity.
    rewrite lookup_insert_same in Hch.
    assert (Hpkm : forall pkm, pkhMap db = Some pkm ->
              pkhMap (insert BUCKETTxid
                        (Bkt (insert (firstn 8 (ParTxid cm))
                           (Val (sigIdxBytes_of cIdxBytes (UpTo elkr')
                                   (CmSig cm))) txi))
                        (insert BUCKETChandata
                           (Bkt (insert (DestPKH cm)
                              (Bkt (insert KEYElkRcv (Val elkBytes) chan0))
                              cda)) db)) = Some pkm).
    { intros pkm H. unfold pkhMap, bkt_sub in *.
      rewrite !lookup_insert_other by reflexivity. exact H. }
    destruct (bytes_eqb p (DestPKH cm)) eqn:Ep.
    + apply bytes_eqb_eq in Ep. subst p. rewrite lookup_insert_same in Hch.
      injection Hch as <-.
      destruct (IH Hn (DestPKH cm) chan0)
        as (idx & pkm & sta & H1 & H2 & H3 & H4 & H5 & H6 & _);
        [unfold channel; rewrite Hcda; exact Hchan|].
      exists idx, pkm, sta. unfold bkt_get in *.
      rewrite !lookup_insert_other by reflexivity.
      rewrite lookup_insert_same.
      repeat split; auto. discriminate.
    + rewrite lookup_insert_other in Hch by exact Ep.
      destruct (IH Hn p chan) as (idx & pkm & sta & H1 & H2 & H3 & H4);
        [unfold channel, bkt_sub; rewrite Hcda; exact Hch|].
      exists idx, pkm, sta. auto.
Qed.

(** X19: in every reachable store each record of the hint index is 74
    bytes long, so that it decodes, and sits under a key of at most 8
    bytes. *)
Theorem reachable_hints_wellformed (n : nat) (db : DB) :
  reachable n db -> hints_wellformed db.
Proof.
  induction 1 as [|n db f Hr IH|n db f wd db' Hr IH Hadd
                  |n db f wd db' e Hr IH Hadd|n db f cm Hr IH].
  - intros key b H. discriminate H.
  - destruct (OpenDB_view f db) as [->|(_ & _ & Ht)]; [exact IH|].
    intros key b H. unfold hintAt in H. rewrite Ht in H.
    destruct (txidIndex db) as [txi|] eqn:E; [|discriminate H].
    apply (IH key b). unfold hintAt. rewrite E. exact H.
  - apply AddNewChannel_ok_view in Hadd.
    destruct Hadd as (pkm & elkBytes & _ & _ & _ & _ & Htxi).
    intros key b H. apply (IH key b). unfold hintAt in *.
    rewrite <- Htxi. exact H.
  - apply Update_rollback in Hadd. subst db'. exact IH.
  - destruct (AddMsg f db cm) as [db' [e|]] eqn:E; cbn [fst].
    { apply Update_rollback in E. subst db'. exact IH. }
    apply AddMsg_ok_view in E.
    destruct E as (chan & elkr & elkr' & elkBytes & cIdxBytes & _ & _ & _ & _ &
                   _ & _ & Hhint & Hother & _).
    intros key b H.
    destruct (bytes_eqb key (firstn 8 (ParTxid cm))) eqn:Ek.
    + apply bytes_eqb_eq in Ek. subst key. rewrite Hhint in H.
      injection H as <-. split; [apply sigIdxBytes_length|].
      apply firstn_le_length.
    + rewrite (Hother key Ek) in H. exact (IH key b H).
Qed.

End Invariants.

Lemma reachable_consistent_witness :
  @consistent db_hint /\
  exists idx, bkt_get (or_empty (channel db_hint (pkh_of 1))) KEYIdx = Some idx /\
              bkt_get (or_empty (pkhMap db_hint)) idx = Some (pkh_of 1).
Proof.
  assert (H : consistent db_hint).
  { apply (@reachable_consistent counter_elkrem spec_codec 1 db_hint).
    - apply (reach_msg 1 db_one io_ok (cm_of 1 txid_a)), reachable_db_one.
    - vm_compute. discriminate. }
  split; [exact H|].
  exists (U32tB 0). vm_compute. split; reflexivity.
Defined.

Lemma reachable_hints_wellformed_witness :
  length (sigIdxBytes_of (U32tB 0) 2 (CmSig (cm_of 1 txid_a))) = 74%nat /\
  (length (firstn 8 txid_a) <= 8)%nat.
Proof.
  apply (@reachable_hints_wellformed counter_elkrem spec_codec 1 db_hint).
  - apply (reach_msg 1 db_one io_ok (cm_of 1 txid_a)), reachable_db_one.
  - vm_compute. reflexivity.
Defined.
